(** * G1 write-barrier engine: a shallow embedding of
      [src/hotspot/share/gc/g1/g1BarrierSet.cpp]

    The barrier set is embedded as pure functions over an explicit VM state:
    the card table, the per-thread and shared SATB / dirty-card queues, the
    two queue sets, and a ghost log of the memory events (fences, lock
    scopes, slot loads, enqueues) in program order.  [Thread::current()] is
    an explicit argument.  HotSpot's [assert] is a fallible step. *)

From Stdlib Require Import ZArith String.
From stdpp Require Import base decidable functions list list_numbers numbers.

Local Open Scope Z_scope.

(** ** Outcomes of a barrier call *)

(** A call either returns, or stops at a failed [assert] (a fatal error of a
    build that has assertions compiled in). *)
Inductive outcome (A : Type) : Type :=
  | Ok (a : A)
  | AssertionFailure (msg : string).
Arguments Ok {A} a.
Arguments AssertionFailure {A} msg.

#[global] Instance outcome_ret : MRet outcome := @Ok.
#[global] Instance outcome_bind : MBind outcome := λ A B f m,
  match m with
  | Ok a => f a
  | AssertionFailure msg => AssertionFailure msg
  end.

(** ** Data model *)

(** Addresses: heap words, array slots and card bytes are all addressed by
    integers; a typed pointer [T*] counts in elements, so [p++] is [p + 1]. *)
Definition address := Z.
(** [oop]: a full-width object reference; [NULL] is 0. *)
Definition oop := Z.
Definition NULL : oop := 0.
(** One byte of the card table. *)
Definition jbyte := Z.
(** [JavaThread*]: the identity of a mutator thread. *)
Definition tid := nat.

(** [Thread*]: a [JavaThread] (a mutator, for which [is_Java_thread()] holds
    and the cast to [JavaThread*] is valid) or any other thread.  Matching on
    a [Thread] stands for the test and the cast. *)
Inductive Thread : Type :=
  | JavaThreadPtr (jt : tid)
  | NonJavaThread.

Definition is_Java_thread (thr : Thread) : bool :=
  match thr with JavaThreadPtr _ => true | NonJavaThread => false end.

(** The two locks taken by [MutexLockerEx] in this file. *)
Inductive Mutex : Type := Shared_SATB_Q_lock | Shared_DirtyCardQ_lock.

(** The two families of queues: [SATBMarkQueue] and [DirtyCardQueue]. *)
Inductive QueueKind : Type := SATB | DirtyCard.

(** Which queue of a family: a thread's own or the set's shared one. *)
Inductive QueueId : Type :=
  | ThreadQ (jt : tid)
  | SharedQ.

#[global] Instance Mutex_eq_dec : EqDecision Mutex.
Proof. solve_decision. Defined.
#[global] Instance QueueKind_eq_dec : EqDecision QueueKind.
Proof. solve_decision. Defined.
#[global] Instance QueueId_eq_dec : EqDecision QueueId.
Proof. solve_decision. Defined.

(** Ghost log entries, in program order. *)
Inductive event : Type :=
  | EvStoreLoad                                   (* OrderAccess::storeload() *)
  | EvLock (m : Mutex)                            (* MutexLockerEx constructed *)
  | EvUnlock (m : Mutex)                          (* ... and destroyed *)
  | EvOopLoad (p : address)                       (* RawAccess<>::oop_load(p) *)
  | EvEnqueue (k : QueueKind) (q : QueueId) (x : Z). (* q.enqueue(x) *)

#[global] Instance event_eq_dec : EqDecision event.
Proof. solve_decision. Defined.

(** Modelled from the spec: [PtrQueue] (gc/shared/ptrQueue.hpp is not part of
    this slice).  A buffer is an ordered, append-only sequence of records
    owned by one thread or shared; it is individually active or inactive. *)
Record PtrQueue : Type := mkPtrQueue {
  _active : bool;
  _buf : list Z;
}.

(** Modelled from the spec: [PtrQueueSet].  It owns the global active flag,
    the shared (non-mutator) buffer and the list of completed buffers
    awaiting drain. *)
Record PtrQueueSet : Type := mkPtrQueueSet {
  _all_active : bool;
  _shared_queue : PtrQueue;
  _completed_buffers : list (list Z);
}.

(** The barrier state of a [JavaThread]. *)
Record JavaThread : Type := mkJavaThread {
  _satb_mark_queue : PtrQueue;
  _dirty_card_queue : PtrQueue;
}.

(** Everything the barrier set reads or writes. *)
Record VM : Type := mkVM {
  threads : tid → JavaThread;
  satb_mark_queue_set : PtrQueueSet;   (* JavaThread::satb_mark_queue_set() *)
  dirty_card_queue_set : PtrQueueSet;  (* JavaThread::dirty_card_queue_set(), alias _dcqs *)
  byte_map : address → jbyte;          (* the card table *)
  is_at_safepoint : bool;              (* SafepointSynchronize::is_at_safepoint() *)
  trace : list event;
}.

(** Modelled from the spec: [MemRegion] (memory/memRegion.hpp is not part of
    this slice): a span of heap words; [last] is its highest address. *)
Record MemRegion : Type := mkMemRegion {
  mr_start : address;
  mr_word_size : N;
}.

Module MemRegion.
Definition is_empty (mr : MemRegion) : bool := (mr_word_size mr =? 0)%N.
Definition last (mr : MemRegion) : address :=
  mr_start mr + Z.of_N (mr_word_size mr) - 1.
End MemRegion.

(** What this file needs from code outside it. *)
Class Collaborators : Type := {
  (** whether [assert] is compiled in (the [ASSERT] macro of debug builds) *)
  ASSERT : bool;
  (** the heap's judgement that a non-null reference is a valid object *)
  is_valid_object : oop → bool;
  (** the capacity of a queue buffer, in records *)
  buffer_capacity : nat;
  (** [G1CardTable::dirty_card_val()], [g1_young_card_val()] and the clean value *)
  dirty_card_val : jbyte;
  g1_young_card_val : jbyte;
  clean_card_val : jbyte;
  (** [_card_table->byte_for(p)]: the card byte covering a heap address *)
  byte_for : address → address;
  (** [CardTableBarrierSet::on_thread_detach], the base class's bookkeeping *)
  CardTableBarrierSet_on_thread_detach : tid → VM → VM;
}.

(** The template parameter [T] of [write_ref_array_pre_work]: [oop] or
    [narrowOop], with [CompressedOops::is_null] and
    [CompressedOops::decode_not_null] at that type. *)
Class HeapOop (T : Type) : Type := {
  is_null : T → bool;
  decode_not_null : T → oop;
}.

(** ** State accessors *)

Definition qset (k : QueueKind) (vm : VM) : PtrQueueSet :=
  match k with
  | SATB => satb_mark_queue_set vm
  | DirtyCard => dirty_card_queue_set vm
  end.

Definition thread_queue (k : QueueKind) (t : JavaThread) : PtrQueue :=
  match k with
  | SATB => _satb_mark_queue t
  | DirtyCard => _dirty_card_queue t
  end.

Definition queue_of (k : QueueKind) (q : QueueId) (vm : VM) : PtrQueue :=
  match q with
  | ThreadQ jt => thread_queue k (threads vm jt)
  | SharedQ => _shared_queue (qset k vm)
  end.

Definition set_thread_queue (k : QueueKind) (q : PtrQueue) (t : JavaThread) : JavaThread :=
  match k with
  | SATB => mkJavaThread q (_dirty_card_queue t)
  | DirtyCard => mkJavaThread (_satb_mark_queue t) q
  end.

Definition set_qset (k : QueueKind) (qs : PtrQueueSet) (vm : VM) : VM :=
  match k with
  | SATB => mkVM (threads vm) qs (dirty_card_queue_set vm) (byte_map vm)
                 (is_at_safepoint vm) (trace vm)
  | DirtyCard => mkVM (threads vm) (satb_mark_queue_set vm) qs (byte_map vm)
                      (is_at_safepoint vm) (trace vm)
  end.

Definition set_threads (ts : tid → JavaThread) (vm : VM) : VM :=
  mkVM ts (satb_mark_queue_set vm) (dirty_card_queue_set vm) (byte_map vm)
       (is_at_safepoint vm) (trace vm).

Definition set_queue (k : QueueKind) (q : QueueId) (pq : PtrQueue) (vm : VM) : VM :=
  match q with
  | ThreadQ jt =>
      set_threads (<[jt := set_thread_queue k pq (threads vm jt)]> (threads vm)) vm
  | SharedQ =>
      set_qset k (mkPtrQueueSet (_all_active (qset k vm)) pq
                                (_completed_buffers (qset k vm))) vm
  end.

Definition set_completed (k : QueueKind) (c : list (list Z)) (vm : VM) : VM :=
  set_qset k (mkPtrQueueSet (_all_active (qset k vm)) (_shared_queue (qset k vm)) c) vm.

(** [*byte = v] on the card table. *)
Definition store_byte (byte : address) (v : jbyte) (vm : VM) : VM :=
  mkVM (threads vm) (satb_mark_queue_set vm) (dirty_card_queue_set vm)
       (<[byte := v]> (byte_map vm)) (is_at_safepoint vm) (trace vm).

Definition log (e : event) (vm : VM) : VM :=
  mkVM (threads vm) (satb_mark_queue_set vm) (dirty_card_queue_set vm)
       (byte_map vm) (is_at_safepoint vm) (trace vm ++ [e]).

(** The records a queue has taken and that still await drain: the completed
    buffers of its set followed by its current buffer. *)
Definition records (k : QueueKind) (q : QueueId) (vm : VM) : list Z :=
  concat (_completed_buffers (qset k vm)) ++ _buf (queue_of k q vm).

(** The queue [Thread::current()] enqueues into. *)
Definition queue_for (thr : Thread) : QueueId :=
  match thr with
  | JavaThreadPtr jt => ThreadQ jt
  | NonJavaThread => SharedQ
  end.

(** ** The queues *)

Module PtrQueue.
Section PtrQueue.
Context `{Collaborators}.

Definition is_active (q : PtrQueue) : bool := _active q.

Definition is_empty (q : PtrQueue) : bool :=
  match _buf q with [] => true | _ :: _ => false end.

Definition set_active (b : bool) (q : PtrQueue) : PtrQueue :=
  mkPtrQueue b (_buf q).

(** Modelled from the spec: [PtrQueue::enqueue] on queue [q] of family [k]:
    append; if the buffer is then full, transfer it to the set's completed
    list and start a fresh buffer. *)
Definition enqueue (k : QueueKind) (q : QueueId) (x : Z) (vm : VM) : VM :=
  let pq := queue_of k q vm in
  let buf := _buf pq ++ [x] in
  let vm := log (EvEnqueue k q x) vm in
  if (buffer_capacity <=? length buf)%nat then
    set_completed k (_completed_buffers (qset k vm) ++ [buf])
      (set_queue k q (mkPtrQueue (_active pq) []) vm)
  else
    set_queue k q (mkPtrQueue (_active pq) buf) vm.

(** Modelled from the spec: [PtrQueue::flush]: hand the buffer's contents off
    to the set's completed list, leaving the buffer empty. *)
Definition flush (k : QueueKind) (q : QueueId) (vm : VM) : VM :=
  let pq := queue_of k q vm in
  match _buf pq with
  | [] => vm
  | _ :: _ =>
      set_completed k (_completed_buffers (qset k vm) ++ [_buf pq])
        (set_queue k q (mkPtrQueue (_active pq) []) vm)
  end.

End PtrQueue.
End PtrQueue.

Module PtrQueueSet.
Definition is_active (qs : PtrQueueSet) : bool := _all_active qs.
End PtrQueueSet.

(** ** The barrier set *)

Module G1BarrierSet.
Section G1BarrierSet.
Context `{Collaborators}.

(** [assert(p, msg)]: checked only when assertions are compiled in. *)
Definition assert (p : bool) (msg : string) : outcome unit :=
  if ASSERT && negb p then AssertionFailure msg else Ok tt.

(** Modelled from the spec: [oopDesc::is_oop] (oops/oop.cpp is not part of
    this slice): the reference is non-null and a valid live object. *)
Definition is_oop (obj : oop) (ignore_mark_word : bool) : bool :=
  negb (obj =? NULL) && is_valid_object obj.

Definition storeload (vm : VM) : VM := log EvStoreLoad vm.
Definition lock (m : Mutex) (vm : VM) : VM := log (EvLock m) vm.
Definition unlock (m : Mutex) (vm : VM) : VM := log (EvUnlock m) vm.

(** [void G1BarrierSet::enqueue(oop pre_val)] *)
Definition enqueue (thr : Thread) (pre_val : oop) (vm : VM) : outcome VM :=
  _ ← assert (is_oop pre_val true) "Error";
  if negb (PtrQueueSet.is_active (qset SATB vm)) then Ok vm else
  match thr with
  | JavaThreadPtr jt =>
      Ok (PtrQueue.enqueue SATB (ThreadQ jt) pre_val vm)
  | NonJavaThread =>
      let vm := lock Shared_SATB_Q_lock vm in
      let vm := PtrQueue.enqueue SATB SharedQ pre_val vm in
      Ok (unlock Shared_SATB_Q_lock vm)
  end.

(** The loop of [write_ref_array_pre_work]; [n] is the number of iterations
    left ([count - i]) and [elem_ptr] the current slot. *)
Fixpoint write_ref_array_pre_loop {T} `{HeapOop T} (thr : Thread)
    (mem : address → T) (n : nat) (elem_ptr : address) (vm : VM) : outcome VM :=
  match n with
  | O => Ok vm
  | S n' =>
      let heap_oop := mem elem_ptr in
      let vm := log (EvOopLoad elem_ptr) vm in
      vm ← (if negb (is_null heap_oop)
            then enqueue thr (decode_not_null heap_oop) vm
            else Ok vm);
      write_ref_array_pre_loop thr mem n' (elem_ptr + 1) vm
  end.

(** [template <class T> void G1BarrierSet::write_ref_array_pre_work(T* dst, size_t count)];
    [mem] is the Java heap seen through [T*]. *)
Definition write_ref_array_pre_work {T} `{HeapOop T} (thr : Thread)
    (mem : address → T) (dst : address) (count : N) (vm : VM) : outcome VM :=
  if negb (PtrQueueSet.is_active (qset SATB vm)) then Ok vm else
  write_ref_array_pre_loop thr mem (N.to_nat count) dst vm.

(** [void G1BarrierSet::write_ref_array_pre(T* dst, size_t count, bool dest_uninitialized)],
    for [T] = [oop] and [T] = [narrowOop]. *)
Definition write_ref_array_pre {T} `{HeapOop T} (thr : Thread)
    (mem : address → T) (dst : address) (count : N) (dest_uninitialized : bool)
    (vm : VM) : outcome VM :=
  if negb dest_uninitialized then write_ref_array_pre_work thr mem dst count vm
  else Ok vm.

(** [void G1BarrierSet::write_ref_field_post_slow(volatile jbyte* byte)] *)
Definition write_ref_field_post_slow (thr : Thread) (byte : address) (vm : VM)
    : outcome VM :=
  _ ← assert (negb (byte_map vm byte =? g1_young_card_val))
             "slow path invoked without filtering";
  let vm := storeload vm in
  if negb (byte_map vm byte =? dirty_card_val) then
    let vm := store_byte byte dirty_card_val vm in
    match thr with
    | JavaThreadPtr jt =>
        Ok (PtrQueue.enqueue DirtyCard (ThreadQ jt) byte vm)
    | NonJavaThread =>
        let vm := lock Shared_DirtyCardQ_lock vm in
        let vm := PtrQueue.enqueue DirtyCard SharedQ byte vm in
        Ok (unlock Shared_DirtyCardQ_lock vm)
    end
  else Ok vm.

(** Modelled from the spec: [G1BarrierSet::write_ref_field_post], the
    post-write barrier with its inline filter (gc/g1/g1BarrierSet.inline.hpp
    is not part of this slice): the slow path is invoked only when the card
    covering the written field is not a young-generation card. *)
Definition write_ref_field_post (thr : Thread) (field : address) (vm : VM)
    : outcome VM :=
  let byte := byte_for field in
  if negb (byte_map vm byte =? g1_young_card_val)
  then write_ref_field_post_slow thr byte vm
  else Ok vm.

(** The number of iterations a loop [for (; byte <= last_byte; byte++)] can
    make from [byte]. *)
Definition span (byte last_byte : address) : nat :=
  Z.to_nat (last_byte - byte + 1).

(** [for (; byte <= last_byte && *byte == g1_young_card_val(); byte++);]
    returns the final value of [byte]. *)
Fixpoint skip_young_loop (n : nat) (byte last_byte : address)
    (bm : address → jbyte) : address :=
  match n with
  | O => byte
  | S n' =>
      if (byte <=? last_byte) && (bm byte =? g1_young_card_val)
      then skip_young_loop n' (byte + 1) last_byte bm
      else byte
  end.

(** [for (; byte <= last_byte; byte++) { ... q.enqueue(byte); }], the loop
    both branches of [invalidate] run, each on its queue [q]; [n] is the
    number of iterations left. *)
Fixpoint dirty_loop (q : QueueId) (n : nat) (byte : address) (vm : VM) : VM :=
  match n with
  | O => vm
  | S n' =>
      if byte_map vm byte =? g1_young_card_val then
        dirty_loop q n' (byte + 1) vm
      else if negb (byte_map vm byte =? dirty_card_val) then
        let vm := store_byte byte dirty_card_val vm in
        let vm := PtrQueue.enqueue DirtyCard q byte vm in
        dirty_loop q n' (byte + 1) vm
      else
        dirty_loop q n' (byte + 1) vm
  end.

(** [void G1BarrierSet::invalidate(MemRegion mr)] *)
Definition invalidate (thr : Thread) (mr : MemRegion) (vm : VM) : VM :=
  if MemRegion.is_empty mr then vm else
  let byte := byte_for (mr_start mr) in
  let last_byte := byte_for (MemRegion.last mr) in
  let byte := skip_young_loop (span byte last_byte) byte last_byte (byte_map vm) in
  if byte <=? last_byte then
    let vm := storeload vm in
    match thr with
    | JavaThreadPtr jt =>
        dirty_loop (ThreadQ jt) (span byte last_byte) byte vm
    | NonJavaThread =>
        let vm := lock Shared_DirtyCardQ_lock vm in
        let vm := dirty_loop SharedQ (span byte last_byte) byte vm in
        unlock Shared_DirtyCardQ_lock vm
    end
  else vm.

(** [void G1BarrierSet::on_thread_attach(JavaThread* thread)] *)
Definition on_thread_attach (thread : tid) (vm : VM) : outcome VM :=
  _ ← assert (negb (is_at_safepoint vm)) "We should not be at a safepoint";
  _ ← assert (negb (PtrQueue.is_active (queue_of SATB (ThreadQ thread) vm)))
             "SATB queue should not be active";
  _ ← assert (PtrQueue.is_empty (queue_of SATB (ThreadQ thread) vm))
             "SATB queue should be empty";
  _ ← assert (PtrQueue.is_active (queue_of DirtyCard (ThreadQ thread) vm))
             "Dirty card queue should be active";
  if PtrQueueSet.is_active (qset SATB vm) then
    Ok (set_queue SATB (ThreadQ thread)
          (PtrQueue.set_active true (queue_of SATB (ThreadQ thread) vm)) vm)
  else Ok vm.

(** [void G1BarrierSet::on_thread_detach(JavaThread* thread)] *)
Definition on_thread_detach (thread : tid) (vm : VM) : VM :=
  let vm := CardTableBarrierSet_on_thread_detach thread vm in
  let vm := PtrQueue.flush SATB (ThreadQ thread) vm in
  PtrQueue.flush DirtyCard (ThreadQ thread) vm.

(** [narrowOop]: a compressed reference as stored in a slot. *)
Definition narrowOop := Z.

(** [void G1BarrierSet::write_ref_array_pre_oop_entry(oop* dst, size_t length)];
    [bs], the barrier set in use, is this one. *)
Definition write_ref_array_pre_oop_entry `{HeapOop oop} (thr : Thread)
    (mem : address → oop) (dst : address) (length : N) (vm : VM) : outcome VM :=
  write_ref_array_pre thr mem dst length false vm.

(** [void G1BarrierSet::write_ref_array_pre_narrow_oop_entry(narrowOop* dst, size_t length)] *)
Definition write_ref_array_pre_narrow_oop_entry `{HeapOop narrowOop} (thr : Thread)
    (mem : address → narrowOop) (dst : address) (length : N) (vm : VM)
    : outcome VM :=
  write_ref_array_pre thr mem dst length false vm.

End G1BarrierSet.
End G1BarrierSet.

(** ** Sample configurations *)

(** A product build (assertions compiled out) and a debug build, with the
    card values of a G1 card table, 64-word cards and buffers of 4 records. *)
Definition product_build : Collaborators := {|
  ASSERT := false;
  is_valid_object := λ _, true;
  buffer_capacity := 4;
  dirty_card_val := 0;
  g1_young_card_val := 32;
  clean_card_val := -1;
  byte_for := λ p, Z.shiftr p 6;
  CardTableBarrierSet_on_thread_detach := λ _ vm, vm;
|}.

Definition debug_build : Collaborators := {|
  ASSERT := true;
  is_valid_object := λ _, true;
  buffer_capacity := 4;
  dirty_card_val := 0;
  g1_young_card_val := 32;
  clean_card_val := -1;
  byte_for := λ p, Z.shiftr p 6;
  CardTableBarrierSet_on_thread_detach := λ _ vm, vm;
|}.

(** [T] = [oop]: a slot holds the reference itself. *)
Definition oop_slots : HeapOop oop := {|
  is_null := λ v, v =? NULL;
  decode_not_null := λ v, v;
|}.

Definition empty_queue (active : bool) : PtrQueue := mkPtrQueue active [].

(** A VM whose threads are freshly created (empty queues, SATB queue not yet
    activated), with the given activity of the SATB queue set and the given
    card table. *)
Definition sample_vm (satb_active : bool) (cards : address → jbyte) : VM := {|
  threads := λ _, mkJavaThread (empty_queue false) (empty_queue true);
  satb_mark_queue_set := mkPtrQueueSet satb_active (empty_queue satb_active) [];
  dirty_card_queue_set := mkPtrQueueSet true (empty_queue true) [];
  byte_map := cards;
  is_at_safepoint := false;
  trace := [];
|}.

(** Cards 0..1 young, every other card clean. *)
Definition sample_cards : address → jbyte :=
  λ b, if (0 <=? b) && (b <=? 1) then 32 else -1.

(** A heap whose slots 100 and 102 hold references and whose other slots are
    null. *)
Definition sample_heap : address → oop :=
  λ p, if p =? 100 then 4096 else if p =? 102 then 8192 else NULL.

(** A VM in which thread 0 holds one SATB record and two dirty-card records,
    and the dirty-card set already has a completed buffer. *)
Definition sample_detach_vm : VM := {|
  threads := λ jt,
    match jt with
    | O => mkJavaThread (mkPtrQueue true [4096]) (mkPtrQueue true [5; 6])
    | S _ => mkJavaThread (empty_queue true) (empty_queue true)
    end;
  satb_mark_queue_set := mkPtrQueueSet true (empty_queue true) [];
  dirty_card_queue_set := mkPtrQueueSet true (empty_queue true) [[1; 2; 3; 4]];
  byte_map := sample_cards;
  is_at_safepoint := false;
  trace := [];
|}.

(** A debug build whose base-class detach bookkeeping flushes a deferred
    card mark for the words 448..511 (card 7): it card-marks through
    [invalidate], on behalf of the detaching thread. *)
Definition deferred_mark_build : Collaborators := {|
  ASSERT := true;
  is_valid_object := λ _, true;
  buffer_capacity := 4;
  dirty_card_val := 0;
  g1_young_card_val := 32;
  clean_card_val := -1;
  byte_for := λ p, Z.shiftr p 6;
  CardTableBarrierSet_on_thread_detach := λ t vm,
    @G1BarrierSet.invalidate debug_build (JavaThreadPtr t) (mkMemRegion 448 64) vm;
|}.

(** The words 0..255: cards 0..3 of the sample card table. *)
Definition sample_region : MemRegion := mkMemRegion 0 256.

(** Card 0 young, 1 clean, 2 dirty, 3 young, every other card clean. *)
Definition mixed_cards : address → jbyte :=
  λ b, if (b =? 0) || (b =? 3) then 32 else if b =? 2 then 0 else -1.

(** ** How an append shows in the state *)

(** Queue [q] of family [k] took [x]: the buffer it was appended to is still
    [q]'s current buffer, or it was full and is now the last completed buffer
    of the set, [q] starting afresh. *)
Definition appended_to `{Collaborators} (k : QueueKind) (q : QueueId) (x : Z)
    (vm vm' : VM) : Prop :=
  let buf := _buf (queue_of k q vm) ++ [x] in
  if decide (buffer_capacity ≤ length buf)%nat then
    _buf (queue_of k q vm') = [] ∧
    _completed_buffers (qset k vm') = _completed_buffers (qset k vm) ++ [buf]
  else
    _buf (queue_of k q vm') = buf ∧
    _completed_buffers (qset k vm') = _completed_buffers (qset k vm).

(** No queue of family [k], thread-local, shared or completed, differs
    between [vm] and [vm']. *)
Definition family_untouched (k : QueueKind) (vm vm' : VM) : Prop :=
  qset k vm' = qset k vm ∧
  ∀ jt, thread_queue k (threads vm' jt) = thread_queue k (threads vm jt).

(** Every current buffer of family [k] other than [q]'s is as it was. *)
Definition others_untouched (k : QueueKind) (q : QueueId) (vm vm' : VM) : Prop :=
  ∀ q', q' ≠ q → queue_of k q' vm' = queue_of k q' vm.

(** The other family: *)
Definition other_kind (k : QueueKind) : QueueKind :=
  match k with SATB => DirtyCard | DirtyCard => SATB end.

(** ** The array pre-write barrier in the words of the specification *)

(** "read the current (possibly compressed) reference; if non-null, decode
    and call enqueue", for one slot. *)
Definition snapshot_slot `{Collaborators} {T} `{HeapOop T} (thr : Thread)
    (mem : address → T) (p : address) (vm : VM) : outcome VM :=
  let v := mem p in
  let vm := log (EvOopLoad p) vm in
  if is_null v then Ok vm
  else G1BarrierSet.enqueue thr (decode_not_null v) vm.

(** Run [f] on each address of a list in turn, stopping at the first
    failure. *)
Fixpoint for_each (f : address → VM → outcome VM) (ps : list address)
    (vm : VM) : outcome VM :=
  match ps with
  | [] => Ok vm
  | p :: ps' => vm ← f p vm; for_each f ps' vm
  end.

(** "for each of the [count] slots starting at [destination] ..." *)
Definition pre_write_array_spec `{Collaborators} {T} `{HeapOop T} (thr : Thread)
    (mem : address → T) (dst : address) (count : N) (vm : VM) : outcome VM :=
  for_each (snapshot_slot thr mem) (seqZ dst (Z.of_N count)) vm.

(** ** What a call leaves in the log and outside the queues *)

(** The log entries of one [G1BarrierSet::enqueue(x)] that passes the
    activity check, on thread [thr]. *)
Definition enqueue_events (thr : Thread) (x : oop) : list event :=
  match thr with
  | JavaThreadPtr jt => [EvEnqueue SATB (ThreadQ jt) x]
  | NonJavaThread =>
      [EvLock Shared_SATB_Q_lock; EvEnqueue SATB SharedQ x;
       EvUnlock Shared_SATB_Q_lock]
  end.

(** The log entries of one dirty-card enqueue of [byte] by [thr] in
    [write_ref_field_post_slow]. *)
Definition dirty_card_events (thr : Thread) (byte : address) : list event :=
  match thr with
  | JavaThreadPtr jt => [EvEnqueue DirtyCard (ThreadQ jt) byte]
  | NonJavaThread =>
      [EvLock Shared_DirtyCardQ_lock; EvEnqueue DirtyCard SharedQ byte;
       EvUnlock Shared_DirtyCardQ_lock]
  end.

(** The card table, the safepoint flag and every activity flag are as they
    were. *)
Definition flags_and_cards_kept (vm vm' : VM) : Prop :=
  byte_map vm' = byte_map vm ∧
  is_at_safepoint vm' = is_at_safepoint vm ∧
  (∀ k, _all_active (qset k vm') = _all_active (qset k vm)) ∧
  (∀ k q, _active (queue_of k q vm') = _active (queue_of k q vm)).

(** The references the array barrier has to snapshot: the decoded values of
    the non-null slots, in slot order. *)
Definition snapshot_of {T} `{HeapOop T} (mem : address → T)
    (slots : list address) : list oop :=
  omap (λ p, if is_null (mem p) then None else Some (decode_not_null (mem p)))
       slots.

(** The log of the array barrier on one slot, with the queue set active. *)
Definition slot_events {T} `{HeapOop T} (thr : Thread) (mem : address → T)
    (p : address) : list event :=
  EvOopLoad p ::
  (if is_null (mem p) then [] else enqueue_events thr (decode_not_null (mem p))).

(** ** The card-marking paths *)

(** A run of post-write slow-path calls by [thr], one per written field; a
    field address reaches the slow path as the card byte covering it. *)
Definition post_slow_run `{Collaborators} (thr : Thread) (fields : list address)
    (vm : VM) : outcome VM :=
  for_each (λ field, G1BarrierSet.write_ref_field_post_slow thr (byte_for field))
           fields vm.

(** The cards among [byte], [byte + 1], ..., [byte + n - 1] that are neither
    young nor dirty in the card table [bm], in address order. *)
Fixpoint cards_to_dirty `{Collaborators} (bm : address → jbyte) (n : nat)
    (byte : address) : list address :=
  match n with
  | O => []
  | S n' =>
      if (bm byte =? g1_young_card_val) || (bm byte =? dirty_card_val)
      then cards_to_dirty bm n' (byte + 1)
      else byte :: cards_to_dirty bm n' (byte + 1)
  end.

(** The log of an [invalidate] by [thr] that dirties and enqueues the cards
    [l]: one fence, then the enqueues, inside one lock scope when the shared
    queue is used. *)
Definition invalidate_events (thr : Thread) (l : list address) : list event :=
  EvStoreLoad ::
  match thr with
  | JavaThreadPtr jt => EvEnqueue DirtyCard (ThreadQ jt) <$> l
  | NonJavaThread =>
      EvLock Shared_DirtyCardQ_lock ::
      (EvEnqueue DirtyCard SharedQ <$> l) ++ [EvUnlock Shared_DirtyCardQ_lock]
  end.

(** ** Thread lifecycle and the SATB invariant *)

(** What a flush adds to the completed list: the buffer, unless it is
    empty. *)
Definition handed_off (buf : list Z) : list (list Z) :=
  match buf with
  | [] => []
  | _ :: _ => [buf]
  end.

(** No SATB buffer, thread-local, shared or completed, holds a null
    reference. *)
Definition satb_no_null (vm : VM) : Prop :=
  (∀ q, NULL ∉ _buf (queue_of SATB q vm)) ∧
  (∀ buf, buf ∈ _completed_buffers (qset SATB vm) → NULL ∉ buf).

(** The operations of the barrier set, as calls with their arguments. *)
Inductive operation (T : Type) : Type :=
  | OpEnqueue (pre_val : oop)
  | OpWriteRefArrayPre (mem : address → T) (dst : address) (count : N)
                       (dest_uninitialized : bool)
  | OpWriteRefFieldPostSlow (byte : address)
  | OpInvalidate (mr : MemRegion)
  | OpOnThreadAttach (thread : tid)
  | OpOnThreadDetach (thread : tid).
Arguments OpEnqueue {T} pre_val.
Arguments OpWriteRefArrayPre {T} mem dst count dest_uninitialized.
Arguments OpWriteRefFieldPostSlow {T} byte.
Arguments OpInvalidate {T} mr.
Arguments OpOnThreadAttach {T} thread.
Arguments OpOnThreadDetach {T} thread.

(** One operation, called on thread [thr]. *)
Definition run_operation `{Collaborators} {T} `{HeapOop T} (thr : Thread)
    (op : operation T) (vm : VM) : outcome VM :=
  match op with
  | OpEnqueue pre_val => G1BarrierSet.enqueue thr pre_val vm
  | OpWriteRefArrayPre mem dst count dest_uninitialized =>
      G1BarrierSet.write_ref_array_pre thr mem dst count dest_uninitialized vm
  | OpWriteRefFieldPostSlow byte => G1BarrierSet.write_ref_field_post_slow thr byte vm
  | OpInvalidate mr => Ok (G1BarrierSet.invalidate thr mr vm)
  | OpOnThreadAttach thread => G1BarrierSet.on_thread_attach thread vm
  | OpOnThreadDetach thread => Ok (G1BarrierSet.on_thread_detach thread vm)
  end.

(** What a caller owes an operation for the SATB invariant: [enqueue] is
    given a non-null reference. *)
Definition null_filtered {T} (op : operation T) : Prop :=
  match op with
  | OpEnqueue pre_val => pre_val ≠ NULL
  | _ => True
  end.

(** ** Regions with any card contents *)

(** A card that is neither young nor dirty: the ones [invalidate] has to
    dirty and enqueue. *)
Definition needs_dirtying `{Collaborators} (bm : address → jbyte)
    (b : address) : Prop :=
  bm b ≠ g1_young_card_val ∧ bm b ≠ dirty_card_val.

#[global] Instance needs_dirtying_dec `{Collaborators} bm b :
  Decision (needs_dirtying bm b).
Proof. unfold needs_dirtying. apply _. Defined.

(** The card bytes of a region, [byte_for(mr.start())] to
    [byte_for(mr.last())], in address order. *)
Definition region_cards `{Collaborators} (mr : MemRegion) : list address :=
  seqZ (byte_for (mr_start mr))
       (byte_for (MemRegion.last mr) - byte_for (mr_start mr) + 1).

(** ** Lock scopes and the kinds of operation *)

(** The lock that guards the shared queue of a family. *)
Definition lock_of (k : QueueKind) : Mutex :=
  match k with
  | SATB => Shared_SATB_Q_lock
  | DirtyCard => Shared_DirtyCardQ_lock
  end.

(** Replay a log against the locks held: a lock is taken only when free,
    released only by the innermost open scope, and a shared queue is
    enqueued into only under its lock.  The result is the locks still held,
    or [None] at the first violation. *)
Fixpoint run_locks (held : list Mutex) (evs : list event) : option (list Mutex) :=
  match evs with
  | [] => Some held
  | EvLock m :: evs' =>
      if decide (m ∈ held) then None else run_locks (m :: held) evs'
  | EvUnlock m :: evs' =>
      match held with
      | m' :: held' => if decide (m = m') then run_locks held' evs' else None
      | [] => None
      end
  | EvEnqueue k SharedQ _ :: evs' =>
      if decide (lock_of k ∈ held) then run_locks held evs' else None
  | _ :: evs' => run_locks held evs'
  end.

Definition is_lock_event (e : event) : bool :=
  match e with
  | EvLock _ | EvUnlock _ => true
  | _ => false
  end.

(** The pre-write (SATB) barriers and the card-marking operations. *)
Definition is_pre_write {T} (op : operation T) : bool :=
  match op with
  | OpEnqueue _ | OpWriteRefArrayPre _ _ _ _ => true
  | _ => false
  end.

Definition is_card_marking {T} (op : operation T) : bool :=
  match op with
  | OpWriteRefFieldPostSlow _ | OpInvalidate _ => true
  | _ => false
  end.

(** The one queue of each family an operation may change: that of the
    thread being attached or detached, or else the caller's. *)
Definition touched_queue {T} (thr : Thread) (op : operation T) : QueueId :=
  match op with
  | OpOnThreadAttach thread | OpOnThreadDetach thread => ThreadQ thread
  | _ => queue_for thr
  end.

(** ** Activity flags *)

(** The active flag of both queue sets and of every queue is as it was. *)
Definition active_flags_kept (vm vm' : VM) : Prop :=
  (∀ k, _all_active (qset k vm') = _all_active (qset k vm)) ∧
  (∀ k q, _active (queue_of k q vm') = _active (queue_of k q vm)).

(** * Properties *)

Section Properties.
Context `{Collaborators}.

(** ** The queue operations *)

Lemma Ok_inj {A} (a b : A) : Ok a = Ok b → a = b.
Proof. by intros [= ->]. Qed.

Lemma queue_of_set_queue_eq k q pq vm :
  queue_of k q (set_queue k q pq vm) = pq.
Proof.
  destruct k, q; simpl; rewrite ?fn_lookup_insert; reflexivity.
Qed.

Lemma queue_of_set_queue_ne k q q' pq vm :
  q' ≠ q → queue_of k q' (set_queue k q pq vm) = queue_of k q' vm.
Proof.
  intros Hne. destruct k, q, q'; simpl; try reflexivity; try congruence;
    rewrite fn_lookup_insert_ne by congruence; reflexivity.
Qed.

Lemma family_untouched_refl k vm : family_untouched k vm vm.
Proof. split; reflexivity. Qed.

Lemma family_untouched_trans k vm1 vm2 vm3 :
  family_untouched k vm1 vm2 → family_untouched k vm2 vm3 →
  family_untouched k vm1 vm3.
Proof.
  intros [Hs1 Ht1] [Hs2 Ht2]. split; [congruence|].
  intros jt. rewrite Ht2. apply Ht1.
Qed.

Lemma family_untouched_log k e vm : family_untouched k vm (log e vm).
Proof. destruct k; split; reflexivity. Qed.

Lemma family_untouched_store_byte k b v vm :
  family_untouched k vm (store_byte b v vm).
Proof. destruct k; split; reflexivity. Qed.

Lemma family_untouched_queue_of k q vm vm' :
  family_untouched k vm vm' → queue_of k q vm' = queue_of k q vm.
Proof. intros [Hs Ht]. destruct q; simpl; [apply Ht | by rewrite Hs]. Qed.

Lemma flags_and_cards_kept_refl vm : flags_and_cards_kept vm vm.
Proof. by repeat split. Qed.

Lemma flags_and_cards_kept_trans vm1 vm2 vm3 :
  flags_and_cards_kept vm1 vm2 → flags_and_cards_kept vm2 vm3 →
  flags_and_cards_kept vm1 vm3.
Proof.
  intros (Hb1 & Hs1 & Ha1 & Hq1) (Hb2 & Hs2 & Ha2 & Hq2).
  repeat split; [congruence | congruence | |].
  - intros k. by rewrite Ha2.
  - intros k q. by rewrite Hq2.
Qed.

Lemma flags_and_cards_kept_log e vm : flags_and_cards_kept vm (log e vm).
Proof. repeat split; by intros []. Qed.

(** What [PtrQueue::enqueue] leaves alone. *)
Lemma PtrQueue_enqueue_frame k q x vm :
  let vm' := PtrQueue.enqueue k q x vm in
  flags_and_cards_kept vm vm' ∧
  trace vm' = trace vm ++ [EvEnqueue k q x] ∧
  family_untouched (other_kind k) vm vm' ∧
  others_untouched k q vm vm'.
Proof.
  unfold PtrQueue.enqueue, flags_and_cards_kept, family_untouched, others_untouched.
  destruct (_ <=? _)%nat;
    (destruct k, q; simpl; repeat split; try reflexivity;
     try (intros []; reflexivity);
     try (intros [] []; simpl; try reflexivity;
          match goal with
          | |- context [<[?a := _]> _ ?b] =>
              destruct (decide (a = b)) as [->|];
              [rewrite fn_lookup_insert | rewrite fn_lookup_insert_ne by done];
              reflexivity
          end);
     try (intros jt0; destruct (decide (jt = jt0)) as [->|];
          [rewrite fn_lookup_insert | rewrite fn_lookup_insert_ne by done];
          reflexivity);
     intros [] ?; simpl; try congruence; try reflexivity;
     rewrite fn_lookup_insert_ne by congruence; reflexivity).
Qed.

(** Where [PtrQueue::enqueue] puts the record. *)
Lemma PtrQueue_enqueue_appended k q x vm :
  appended_to k q x vm (PtrQueue.enqueue k q x vm).
Proof.
  unfold appended_to, PtrQueue.enqueue.
  destruct (decide _) as [Hfull|Hroom].
  - apply Nat.leb_le in Hfull as ->.
    destruct k, q; simpl; rewrite ?fn_lookup_insert; done.
  - apply Nat.leb_nle in Hroom as ->.
    destruct k, q; simpl; rewrite ?fn_lookup_insert; done.
Qed.

(** An append never drops a record: the records awaiting drain grow by
    exactly the new one, at the end. *)
Lemma appended_to_records k q x vm vm' :
  appended_to k q x vm vm' → records k q vm' = records k q vm ++ [x].
Proof.
  unfold appended_to, records. destruct (decide _); intros [-> ->].
  - rewrite concat_app. simpl. by rewrite !app_nil_r, app_assoc.
  - by rewrite app_assoc.
Qed.

(** [appended_to] only looks at family [k]. *)
Lemma appended_to_proper k q x vm1 vm1' vm2 vm2' :
  family_untouched k vm1 vm1' → family_untouched k vm2 vm2' →
  appended_to k q x vm1 vm2 → appended_to k q x vm1' vm2'.
Proof.
  intros H1 H2. unfold appended_to.
  rewrite (family_untouched_queue_of _ q _ _ H1), (family_untouched_queue_of _ q _ _ H2).
  destruct H1 as [-> _], H2 as [-> _]. done.
Qed.

Lemma others_untouched_proper k q vm1 vm1' vm2 vm2' :
  family_untouched k vm1 vm1' → family_untouched k vm2 vm2' →
  others_untouched k q vm1 vm2 → others_untouched k q vm1' vm2'.
Proof.
  intros H1 H2 Ho q' Hne.
  rewrite (family_untouched_queue_of _ q' _ _ H1), (family_untouched_queue_of _ q' _ _ H2).
  by apply Ho.
Qed.

(** An enqueue between two log entries, as in a [MutexLockerEx] scope. *)
Lemma PtrQueue_enqueue_logged k q x e1 e2 vm :
  let vm' := log e2 (PtrQueue.enqueue k q x (log e1 vm)) in
  appended_to k q x vm vm' ∧
  others_untouched k q vm vm' ∧
  family_untouched (other_kind k) vm vm' ∧
  flags_and_cards_kept vm vm' ∧
  trace vm' = trace vm ++ [e1; EvEnqueue k q x; e2].
Proof.
  set (vm1 := log e1 vm). intros vm'.
  pose proof (PtrQueue_enqueue_frame k q x vm1) as (Hk & Htr & Hf & Ho).
  pose proof (PtrQueue_enqueue_appended k q x vm1) as Ha.
  assert (∀ k, family_untouched k vm1 vm) as Hback by (intros []; split; reflexivity).
  split_and!.
  - eapply appended_to_proper; [apply Hback | apply family_untouched_log | apply Ha].
  - eapply others_untouched_proper; [apply Hback | apply family_untouched_log | apply Ho].
  - eapply family_untouched_trans; [|apply family_untouched_log].
    eapply family_untouched_trans; [apply family_untouched_log | apply Hf].
  - eapply flags_and_cards_kept_trans; [|apply flags_and_cards_kept_log].
    eapply flags_and_cards_kept_trans; [apply flags_and_cards_kept_log | apply Hk].
  - unfold vm'. cbn [log trace]. rewrite Htr. unfold vm1. cbn [log trace].
    by rewrite <- !app_assoc.
Qed.

Lemma assert_true p msg : p = true → G1BarrierSet.assert p msg = Ok tt.
Proof. intros ->. unfold G1BarrierSet.assert. by rewrite andb_false_r. Qed.

Lemma assert_debug_false p msg :
  ASSERT = true → p = false →
  G1BarrierSet.assert p msg = AssertionFailure msg.
Proof. intros Hd ->. unfold G1BarrierSet.assert. by rewrite Hd. Qed.

Lemma is_oop_true r b :
  r ≠ NULL → is_valid_object r = true → G1BarrierSet.is_oop r b = true.
Proof.
  intros Hr Hv. unfold G1BarrierSet.is_oop. rewrite Hv, andb_true_r.
  apply negb_true_iff, Z.eqb_neq, Hr.
Qed.

(** ** The pre-write barrier *)

(** A returning [enqueue] with the queue set active. *)
Lemma enqueue_Ok_active thr r vm vm' :
  PtrQueueSet.is_active (qset SATB vm) = true →
  G1BarrierSet.enqueue thr r vm = Ok vm' →
  appended_to SATB (queue_for thr) r vm vm' ∧
  others_untouched SATB (queue_for thr) vm vm' ∧
  family_untouched DirtyCard vm vm' ∧
  flags_and_cards_kept vm vm' ∧
  trace vm' = trace vm ++ enqueue_events thr r.
Proof.
  intros Hact. unfold G1BarrierSet.enqueue.
  destruct (G1BarrierSet.assert _ _); [|discriminate].
  cbn [mbind outcome_bind]. rewrite Hact. cbn [negb].
  destruct thr as [jt|]; intros [= <-].
  - pose proof (PtrQueue_enqueue_frame SATB (ThreadQ jt) r vm) as (?&?&?&?).
    split_and!; try done. apply PtrQueue_enqueue_appended.
  - apply (PtrQueue_enqueue_logged SATB SharedQ r).
Qed.

(** A returning [enqueue] with the queue set inactive. *)
Lemma enqueue_Ok_inactive thr r vm vm' :
  PtrQueueSet.is_active (qset SATB vm) = false →
  G1BarrierSet.enqueue thr r vm = Ok vm' → vm' = vm.
Proof.
  intros Hact. unfold G1BarrierSet.enqueue.
  destruct (G1BarrierSet.assert _ _); [|discriminate].
  cbn [mbind outcome_bind]. rewrite Hact. by intros [= <-].
Qed.

(** [enqueue] returns on every reference that passes its assertion. *)
Lemma enqueue_returns thr r vm :
  r ≠ NULL → is_valid_object r = true →
  ∃ vm', G1BarrierSet.enqueue thr r vm = Ok vm'.
Proof.
  intros Hr Hv. unfold G1BarrierSet.enqueue.
  rewrite (assert_true _ _ (is_oop_true r true Hr Hv)). cbn [mbind outcome_bind].
  destruct (negb _); [eauto|]. destruct thr; eauto.
Qed.

(** C1.  For a non-null valid reference [r], [enqueue(r)] returns; when the
    SATB queue set is active it appends [r] to exactly one buffer, the one
    of the calling mutator thread or the shared one for any other thread,
    and no other queue of either family changes; when the set is inactive
    the state is unchanged; hence some queue gains [r] if and only if the
    set is active. *)
Theorem enqueue_appends_iff_active (thr : Thread) (r : oop) (vm : VM) :
  r ≠ NULL → is_valid_object r = true →
  ∃ vm', G1BarrierSet.enqueue thr r vm = Ok vm' ∧
    (PtrQueueSet.is_active (qset SATB vm) = true →
       appended_to SATB (queue_for thr) r vm vm' ∧
       others_untouched SATB (queue_for thr) vm vm' ∧
       family_untouched DirtyCard vm vm') ∧
    (PtrQueueSet.is_active (qset SATB vm) = false → vm' = vm) ∧
    ((∃ k q, records k q vm' = records k q vm ++ [r]) ↔
       PtrQueueSet.is_active (qset SATB vm) = true).
Proof.
  intros Hr Hv. destruct (enqueue_returns thr r vm Hr Hv) as [vm' Hrun].
  exists vm'. split; [done|].
  destruct (PtrQueueSet.is_active (qset SATB vm)) eqn:Hact.
  - destruct (enqueue_Ok_active _ _ _ _ Hact Hrun) as (Ha & Ho & Hf & _).
    repeat split; try apply Hf; try done.
    intros _. exists SATB, (queue_for thr). by apply appended_to_records.
  - pose proof (enqueue_Ok_inactive _ _ _ _ Hact Hrun) as ->.
    repeat split; try done.
    intros (k & q & Heq). apply (f_equal length) in Heq.
    rewrite length_app in Heq. simpl in Heq. lia.
Qed.

(** ** The array pre-write barrier *)

Section ArrayPre.
Context {T : Type} `{HeapOop T}.

(** The loop visits the slots [elem_ptr], [elem_ptr + 1], ... in order. *)
Lemma write_ref_array_pre_loop_slots thr (mem : address → T) n elem_ptr vm :
  G1BarrierSet.write_ref_array_pre_loop thr mem n elem_ptr vm =
  for_each (snapshot_slot thr mem) (seqZ elem_ptr (Z.of_nat n)) vm.
Proof.
  revert elem_ptr vm. induction n as [|n IH]; intros elem_ptr vm.
  - reflexivity.
  - rewrite seqZ_cons by lia.
    replace (Z.pred (Z.of_nat (S n))) with (Z.of_nat n) by lia.
    cbn [G1BarrierSet.write_ref_array_pre_loop for_each].
    replace (Z.succ elem_ptr) with (elem_ptr + 1) by lia.
    unfold mbind, outcome_bind, snapshot_slot.
    destruct (is_null (mem elem_ptr)); cbn [negb]; [apply IH|].
    destruct (G1BarrierSet.enqueue _ _ _); [apply IH | reflexivity].
Qed.

Lemma others_untouched_trans k q vm1 vm2 vm3 :
  others_untouched k q vm1 vm2 → others_untouched k q vm2 vm3 →
  others_untouched k q vm1 vm3.
Proof. intros H1 H2 q' Hne. rewrite H2 by done. by apply H1. Qed.

(** One slot, with the queue set active. *)
Lemma snapshot_slot_active thr (mem : address → T) p vm vm1 :
  PtrQueueSet.is_active (qset SATB vm) = true →
  snapshot_slot thr mem p vm = Ok vm1 →
  records SATB (queue_for thr) vm1 =
    records SATB (queue_for thr) vm ++ snapshot_of mem [p] ∧
  others_untouched SATB (queue_for thr) vm vm1 ∧
  family_untouched DirtyCard vm vm1 ∧
  flags_and_cards_kept vm vm1 ∧
  trace vm1 = trace vm ++ slot_events thr mem p.
Proof.
  intros Hact. unfold snapshot_slot, snapshot_of, slot_events. cbn [omap list_omap].
  destruct (is_null (mem p)).
  - intros [= <-]. rewrite app_nil_r. split_and!.
    + reflexivity.
    + by intros q' _.
    + apply family_untouched_log.
    + apply flags_and_cards_kept_log.
    + reflexivity.
  - intros Hrun.
    apply (enqueue_Ok_active thr _ (log (EvOopLoad p) vm)) in Hrun as (Ha & Ho & Hf & Hk & Htr);
      [|exact Hact].
    apply appended_to_records in Ha. split_and!.
    + exact Ha.
    + exact Ho.
    + exact Hf.
    + eapply flags_and_cards_kept_trans; [apply flags_and_cards_kept_log | apply Hk].
    + rewrite Htr. cbn [log trace]. by rewrite <- app_assoc.
Qed.

(** All the slots, with the queue set active: the SATB records of the
    caller's queue grow by the decoded non-null slot values, in slot order,
    and the log shows each slot read once, each read followed by the enqueue
    of its value if it is non-null. *)
Lemma for_each_slot_active thr (mem : address → T) slots vm vm' :
  PtrQueueSet.is_active (qset SATB vm) = true →
  for_each (snapshot_slot thr mem) slots vm = Ok vm' →
  records SATB (queue_for thr) vm' =
    records SATB (queue_for thr) vm ++ snapshot_of mem slots ∧
  others_untouched SATB (queue_for thr) vm vm' ∧
  family_untouched DirtyCard vm vm' ∧
  flags_and_cards_kept vm vm' ∧
  trace vm' = trace vm ++ concat (slot_events thr mem <$> slots).
Proof.
  revert vm. induction slots as [|p ps IH]; intros vm Hact.
  - intros [= <-]. cbn. rewrite !app_nil_r. split_and!.
    + reflexivity.
    + by intros q' _.
    + apply family_untouched_refl.
    + apply flags_and_cards_kept_refl.
    + reflexivity.
  - cbn [for_each]. destruct (snapshot_slot thr mem p vm) as [vm1|] eqn:Hp;
      [|discriminate].
    cbn [mbind outcome_bind]. intros Hps.
    destruct (snapshot_slot_active _ _ _ _ _ Hact Hp) as (Hr1 & Ho1 & Hf1 & Hk1 & Ht1).
    assert (PtrQueueSet.is_active (qset SATB vm1) = true) as Hact1.
    { destruct Hk1 as (_ & _ & Hall & _). unfold PtrQueueSet.is_active.
      rewrite Hall. exact Hact. }
    destruct (IH vm1 Hact1 Hps) as (Hr2 & Ho2 & Hf2 & Hk2 & Ht2).
    split_and!.
    + rewrite Hr2, Hr1, <- app_assoc. f_equal.
      unfold snapshot_of. cbn [omap list_omap].
      by destruct (is_null (mem p)).
    + eapply others_untouched_trans; eassumption.
    + eapply family_untouched_trans; eassumption.
    + eapply flags_and_cards_kept_trans; eassumption.
    + rewrite Ht2, Ht1, <- app_assoc. reflexivity.
Qed.

(** C5 (as amended).  With [dest_uninitialized = false] and the SATB queue
    set active, the barrier does, for each of the [count] slots from [dst]
    on and in that order: read the slot, and exactly when the value is
    non-null decode it and call [enqueue] on the result.  When it returns,
    the caller's SATB queue has gained the decoded non-null slot values and
    nothing else, and the log shows one load per slot, followed by the
    enqueue of its value exactly for the non-null ones. *)
Theorem write_ref_array_pre_active_snapshots_each_slot
    (thr : Thread) (mem : address → T) (dst : address) (count : N) (vm : VM) :
  PtrQueueSet.is_active (qset SATB vm) = true →
  G1BarrierSet.write_ref_array_pre thr mem dst count false vm =
    pre_write_array_spec thr mem dst count vm ∧
  ∀ vm', G1BarrierSet.write_ref_array_pre thr mem dst count false vm = Ok vm' →
    records SATB (queue_for thr) vm' =
      records SATB (queue_for thr) vm ++ snapshot_of mem (seqZ dst (Z.of_N count)) ∧
    others_untouched SATB (queue_for thr) vm vm' ∧
    family_untouched DirtyCard vm vm' ∧
    trace vm' =
      trace vm ++ concat (slot_events thr mem <$> seqZ dst (Z.of_N count)).
Proof.
  intros Hact.
  assert (G1BarrierSet.write_ref_array_pre thr mem dst count false vm =
          pre_write_array_spec thr mem dst count vm) as Heq.
  { unfold G1BarrierSet.write_ref_array_pre, G1BarrierSet.write_ref_array_pre_work,
      pre_write_array_spec.
    rewrite Hact. cbn [negb].
    rewrite write_ref_array_pre_loop_slots. by rewrite N_nat_Z. }
  split; [exact Heq|]. rewrite Heq. intros vm' Hrun.
  destruct (for_each_slot_active _ _ _ _ _ Hact Hrun) as (? & ? & ? & _ & ?).
  done.
Qed.

(** C6.  With [dest_uninitialized = true] the barrier returns at once,
    whatever the destination, the count, the heap contents and the activity
    of the queue set: the state, log of loads included, is unchanged. *)
Theorem write_ref_array_pre_uninitialized_noop
    (thr : Thread) (mem : address → T) (dst : address) (count : N) (vm : VM) :
  G1BarrierSet.write_ref_array_pre thr mem dst count true vm = Ok vm.
Proof. reflexivity. Qed.

(** C10.  With [dest_uninitialized = false] and the SATB queue set inactive,
    the barrier returns before its loop: the state, log of loads included,
    is unchanged, whatever the count and the heap contents. *)
Theorem write_ref_array_pre_inactive_noop
    (thr : Thread) (mem : address → T) (dst : address) (count : N) (vm : VM) :
  PtrQueueSet.is_active (qset SATB vm) = false →
  G1BarrierSet.write_ref_array_pre thr mem dst count false vm = Ok vm.
Proof.
  intros Hact.
  unfold G1BarrierSet.write_ref_array_pre, G1BarrierSet.write_ref_array_pre_work.
  by rewrite Hact.
Qed.

End ArrayPre.

(** ** The post-write slow path *)

Lemma records_log k q e vm : records k q (log e vm) = records k q vm.
Proof. by destruct k, q. Qed.

Lemma records_store_byte k q b v vm :
  records k q (store_byte b v vm) = records k q vm.
Proof. by destruct k, q. Qed.

(** On a card that is already dirty the slow path only issues its fence. *)
Lemma write_ref_field_post_slow_dirty thr byte vm :
  g1_young_card_val ≠ dirty_card_val →
  byte_map vm byte = dirty_card_val →
  G1BarrierSet.write_ref_field_post_slow thr byte vm =
  Ok (G1BarrierSet.storeload vm).
Proof.
  intros Hyd Hd. unfold G1BarrierSet.write_ref_field_post_slow.
  rewrite assert_true.
  - cbn [mbind outcome_bind G1BarrierSet.storeload log byte_map].
    by rewrite Hd, Z.eqb_refl.
  - rewrite Hd. apply negb_true_iff, Z.eqb_neq. congruence.
Qed.

Lemma post_slow_run_dirty thr byte fields vm :
  g1_young_card_val ≠ dirty_card_val →
  byte_map vm byte = dirty_card_val →
  Forall (λ field, byte_for field = byte) fields →
  ∃ vm', post_slow_run thr fields vm = Ok vm' ∧
    byte_map vm' = byte_map vm ∧
    (∀ k, family_untouched k vm vm') ∧
    trace vm' = trace vm ++ replicate (length fields) EvStoreLoad.
Proof.
  intros Hyd. revert vm.
  induction fields as [|a fields IH]; intros vm Hd Hall.
  - exists vm. cbn. rewrite app_nil_r.
    split_and!; try done.
  - apply Forall_cons_1 in Hall as [Ha Hall].
    unfold post_slow_run. cbn [for_each]. rewrite Ha.
    rewrite (write_ref_field_post_slow_dirty thr byte vm Hyd Hd).
    cbn [mbind outcome_bind].
    destruct (IH (G1BarrierSet.storeload vm) Hd Hall) as (vm' & Hrun & Hbm & Hf & Htr).
    exists vm'. split_and!.
    + exact Hrun.
    + exact Hbm.
    + intros k. eapply family_untouched_trans; [apply family_untouched_log | apply Hf].
    + rewrite Htr. cbn [G1BarrierSet.storeload log trace length replicate].
      by rewrite <- app_assoc.
Qed.

(** C3.  On a card that is not young the slow path returns with the card
    dirty and every other card as it was; it enqueues the card's address,
    in the caller's dirty-card queue and nowhere else, exactly when the card
    was not dirty already.  Once the card is dirty, any further run of
    slow-path calls on fields of that card leaves the card table and every
    queue as they are.  The young and the dirty card values are taken to
    differ. *)
Theorem write_ref_field_post_slow_dirties_once
    (thr : Thread) (byte : address) (vm : VM) :
  g1_young_card_val ≠ dirty_card_val →
  byte_map vm byte ≠ g1_young_card_val →
  ∃ vm', G1BarrierSet.write_ref_field_post_slow thr byte vm = Ok vm' ∧
    byte_map vm' byte = dirty_card_val ∧
    (∀ b, b ≠ byte → byte_map vm' b = byte_map vm b) ∧
    family_untouched SATB vm vm' ∧
    (byte_map vm byte ≠ dirty_card_val →
       appended_to DirtyCard (queue_for thr) byte vm vm' ∧
       others_untouched DirtyCard (queue_for thr) vm vm' ∧
       trace vm' = trace vm ++ EvStoreLoad :: dirty_card_events thr byte) ∧
    (byte_map vm byte = dirty_card_val →
       family_untouched DirtyCard vm vm' ∧
       trace vm' = trace vm ++ [EvStoreLoad]) ∧
    (∀ thr' fields, Forall (λ field, byte_for field = byte) fields →
       ∃ vm'', post_slow_run thr' fields vm' = Ok vm'' ∧
         byte_map vm'' = byte_map vm' ∧
         ∀ k, family_untouched k vm' vm'').
Proof.
  intros Hyd Hny.
  assert (∃ vm', G1BarrierSet.write_ref_field_post_slow thr byte vm = Ok vm' ∧
    byte_map vm' byte = dirty_card_val ∧
    (∀ b, b ≠ byte → byte_map vm' b = byte_map vm b) ∧
    family_untouched SATB vm vm' ∧
    (byte_map vm byte ≠ dirty_card_val →
       appended_to DirtyCard (queue_for thr) byte vm vm' ∧
       others_untouched DirtyCard (queue_for thr) vm vm' ∧
       trace vm' = trace vm ++ EvStoreLoad :: dirty_card_events thr byte) ∧
    (byte_map vm byte = dirty_card_val →
       family_untouched DirtyCard vm vm' ∧
       trace vm' = trace vm ++ [EvStoreLoad])) as (vm' & Hrun & Hd & Hrest).
  { unfold G1BarrierSet.write_ref_field_post_slow.
    rewrite assert_true by (by apply negb_true_iff, Z.eqb_neq).
    cbn [mbind outcome_bind]. unfold G1BarrierSet.storeload.
    change (byte_map (log EvStoreLoad vm) byte) with (byte_map vm byte).
    destruct (Z.eqb_spec (byte_map vm byte) dirty_card_val) as [Hdirty|Hclean];
      cbn [negb].
    - eexists. split; [reflexivity|].
      split; [exact Hdirty|].
      split; [reflexivity|].
      split; [apply family_untouched_log|].
      split; [intros Hn; by destruct Hn|].
      intros _. split; [apply family_untouched_log | reflexivity].
    - set (vm1 := store_byte byte dirty_card_val (log EvStoreLoad vm)).
      assert (∀ k, family_untouched k vm vm1) as Hfam1
        by (intros []; split; reflexivity).
      assert (∀ k, family_untouched k vm1 vm) as Hback
        by (intros []; split; reflexivity).
      assert (byte_map vm1 byte = dirty_card_val) as Hd1
        by (unfold vm1; cbn; apply fn_lookup_insert).
      assert (∀ b, b ≠ byte → byte_map vm1 b = byte_map vm b) as Ho1
        by (intros b Hb; unfold vm1; cbn; by apply fn_lookup_insert_ne).
      assert (trace vm1 = trace vm ++ [EvStoreLoad]) as Ht1 by reflexivity.
      assert (∃ vm2,
        match thr with
        | JavaThreadPtr jt => Ok (PtrQueue.enqueue DirtyCard (ThreadQ jt) byte vm1)
        | NonJavaThread =>
            Ok (G1BarrierSet.unlock Shared_DirtyCardQ_lock
                  (PtrQueue.enqueue DirtyCard SharedQ byte
                     (G1BarrierSet.lock Shared_DirtyCardQ_lock vm1)))
        end = Ok vm2 ∧
        byte_map vm2 = byte_map vm1 ∧
        family_untouched SATB vm1 vm2 ∧
        appended_to DirtyCard (queue_for thr) byte vm1 vm2 ∧
        others_untouched DirtyCard (queue_for thr) vm1 vm2 ∧
        trace vm2 = trace vm1 ++ dirty_card_events thr byte)
        as (vm2 & -> & Hbm & Hf & Ha & Ho & Htr).
      { destruct thr as [jt|]; (eexists; split; [reflexivity|]).
        - pose proof (PtrQueue_enqueue_frame DirtyCard (ThreadQ jt) byte vm1)
            as ((? & _) & ? & ? & ?).
          pose proof (PtrQueue_enqueue_appended DirtyCard (ThreadQ jt) byte vm1).
          done.
        - pose proof (PtrQueue_enqueue_logged DirtyCard SharedQ byte
                        (EvLock Shared_DirtyCardQ_lock)
                        (EvUnlock Shared_DirtyCardQ_lock) vm1)
            as (? & ? & ? & (? & _) & ?).
          done. }
      exists vm2. split; [reflexivity|].
      split; [by rewrite Hbm|].
      split; [intros b Hb; rewrite Hbm; by apply Ho1|].
      split; [eapply family_untouched_trans; [apply Hfam1 | apply Hf]|].
      split; [|intros Hdirty; by destruct Hclean].
      intros _. split; [|split].
      + eapply appended_to_proper;
          [apply Hback | apply family_untouched_refl | apply Ha].
      + eapply others_untouched_proper;
          [apply Hback | apply family_untouched_refl | apply Ho].
      + rewrite Htr, Ht1. by rewrite <- app_assoc. }
  exists vm'. split; [exact Hrun|]. split; [exact Hd|].
  destruct Hrest as (Ho & Hs & Hc & Hdd). split_and!; try done.
  intros thr' fields Hall.
  destruct (post_slow_run_dirty thr' byte fields vm' Hyd Hd Hall)
    as (vm'' & ? & ? & ? & _).
  by exists vm''.
Qed.

(** ** Region invalidation *)

Lemma cards_to_dirty_insert_below bm n byte b0 v :
  b0 < byte →
  cards_to_dirty (<[b0 := v]> bm) n byte = cards_to_dirty bm n byte.
Proof.
  revert byte. induction n as [|n IH]; intros byte Hlt; [reflexivity|].
  cbn [cards_to_dirty].
  rewrite fn_lookup_insert_ne by lia. rewrite IH by lia. reflexivity.
Qed.

Lemma elem_of_cards_to_dirty bm n byte b :
  b ∈ cards_to_dirty bm n byte ↔
  byte ≤ b < byte + Z.of_nat n ∧
  bm b ≠ g1_young_card_val ∧ bm b ≠ dirty_card_val.
Proof.
  revert byte. induction n as [|n IH]; intros byte.
  - cbn. rewrite elem_of_nil. lia.
  - cbn [cards_to_dirty].
    destruct (Z.eqb_spec (bm byte) g1_young_card_val) as [Hy|Hy];
      destruct (Z.eqb_spec (bm byte) dirty_card_val) as [Hd|Hd]; cbn [orb];
      rewrite ?elem_of_cons, IH;
      (split; [intros Hin | intros (Hr & Hby & Hbd)]).
    all: try (destruct (decide (b = byte)) as [->|]; [congruence|]).
    all: try (split; [lia | tauto]).
    + destruct Hin as [->|Hin]; [split; [lia|done] | split; [lia|tauto]].
    + destruct (decide (b = byte)) as [->|]; [by left | right].
      split; [lia | tauto].
Qed.

Lemma cards_to_dirty_all bm n byte :
  (∀ b, byte ≤ b < byte + Z.of_nat n →
        bm b ≠ g1_young_card_val ∧ bm b ≠ dirty_card_val) →
  cards_to_dirty bm n byte = seqZ byte (Z.of_nat n).
Proof.
  revert byte. induction n as [|n IH]; intros byte Hall; [reflexivity|].
  cbn [cards_to_dirty]. rewrite seqZ_cons by lia.
  destruct (Hall byte ltac:(lia)) as [Hy Hd].
  apply Z.eqb_neq in Hy as ->. apply Z.eqb_neq in Hd as ->. cbn [orb].
  rewrite IH by (intros b Hb; apply Hall; lia).
  f_equal. f_equal; lia.
Qed.

(** The dirtying loop, run for [n] cards from [byte] on queue [q]: exactly
    the cards that were neither young nor dirty become dirty and are
    enqueued, once each and in address order. *)
Lemma dirty_loop_effect q n byte vm :
  let l := cards_to_dirty (byte_map vm) n byte in
  let vm' := G1BarrierSet.dirty_loop q n byte vm in
  (∀ b, byte_map vm' b = if decide (b ∈ l) then dirty_card_val else byte_map vm b) ∧
  records DirtyCard q vm' = records DirtyCard q vm ++ l ∧
  others_untouched DirtyCard q vm vm' ∧
  family_untouched SATB vm vm' ∧
  trace vm' = trace vm ++ (EvEnqueue DirtyCard q <$> l).
Proof.
  revert byte vm. induction n as [|n IH]; intros byte vm.
  - cbn. rewrite !app_nil_r. split; [|split; [|split; [|split]]];
      first [done | apply family_untouched_refl].
  - cbn [G1BarrierSet.dirty_loop cards_to_dirty].
    destruct (Z.eqb_spec (byte_map vm byte) g1_young_card_val) as [Hy|Hy];
      [cbn [orb]; apply IH|].
    destruct (Z.eqb_spec (byte_map vm byte) dirty_card_val) as [Hd|Hd];
      cbn [orb negb]; [apply IH|].
    set (vm0 := store_byte byte dirty_card_val vm).
    set (vm1 := PtrQueue.enqueue DirtyCard q byte vm0).
    pose proof (PtrQueue_enqueue_frame DirtyCard q byte vm0)
      as ((Hbm & _) & Htr & Hf & Ho).
    pose proof (appended_to_records _ _ _ _ _
                  (PtrQueue_enqueue_appended DirtyCard q byte vm0)) as Hrec.
    fold vm1 in Hbm, Htr, Hf, Ho, Hrec.
    assert (byte_map vm1 = <[byte := dirty_card_val]> (byte_map vm)) as Hbm1
      by (rewrite Hbm; reflexivity).
    destruct (IH (byte + 1) vm1) as (Hb' & Hr' & Ho' & Hf' & Ht').
    rewrite Hbm1, cards_to_dirty_insert_below in Hb', Hr', Ht' by lia.
    set (l := cards_to_dirty (byte_map vm) n (byte + 1)) in *.
    split; [|split; [|split; [|split]]].
    + intros b. rewrite Hb'.
      destruct (decide (b = byte)) as [->|Hne].
      * rewrite fn_lookup_insert.
        rewrite (decide_True (P := byte ∈ byte :: l)) by (apply elem_of_cons; by left).
        by destruct (decide _).
      * rewrite fn_lookup_insert_ne by done.
        destruct (decide (b ∈ l)) as [Hin|Hnin].
        -- by rewrite decide_True by (apply elem_of_cons; by right).
        -- rewrite decide_False; [done|].
           rewrite elem_of_cons. tauto.
    + rewrite Hr', Hrec. unfold vm0. rewrite records_store_byte.
      by rewrite <- app_assoc.
    + eapply others_untouched_trans; [|apply Ho'].
      eapply others_untouched_proper;
        [apply family_untouched_refl | apply family_untouched_refl |].
      intros q' Hne. rewrite Ho by done. by destruct q'.
    + eapply family_untouched_trans; [|apply Hf'].
      eapply family_untouched_trans; [|apply Hf].
      apply family_untouched_store_byte.
    + rewrite Ht', Htr. unfold vm0. cbn [store_byte trace fmap list_fmap].
      by rewrite <- app_assoc.
Qed.

(** The first loop stops on the first card that is not young. *)
Lemma skip_young_loop_prefix bm c0 ck m :
  c0 - 1 ≤ m ≤ ck →
  (∀ b, c0 ≤ b ≤ m → bm b = g1_young_card_val) →
  (m < ck → bm (m + 1) ≠ g1_young_card_val) →
  G1BarrierSet.skip_young_loop (G1BarrierSet.span c0 ck) c0 ck bm = m + 1.
Proof.
  unfold G1BarrierSet.span.
  remember (Z.to_nat (ck - c0 + 1)) as n eqn:Hn.
  revert c0 Hn. induction n as [|n IH]; intros c0 Hn Hm Hyoung Hstop.
  - cbn. lia.
  - cbn [G1BarrierSet.skip_young_loop].
    rewrite (proj2 (Z.leb_le c0 ck)) by lia. cbn [andb].
    destruct (decide (c0 ≤ m)) as [Hle|Hgt].
    + rewrite Hyoung by lia. rewrite Z.eqb_refl.
      apply IH; [lia | lia | intros b Hb; apply Hyoung; lia | done].
    + assert (m + 1 = c0) as Heq by lia.
      rewrite <- Heq at 1.
      rewrite (proj2 (Z.eqb_neq _ _)) by (apply Hstop; lia). lia.
Qed.

(** The effect of [invalidate] on a non-empty region, whatever its cards:
    with [r] the card the first loop stops on and [l] the cards from [r] to
    the last one that are neither young nor dirty, exactly the cards of [l]
    become dirty and are enqueued, on the caller's queue. *)
Lemma invalidate_effect thr mr vm :
  MemRegion.is_empty mr = false →
  let ck := byte_for (MemRegion.last mr) in
  let r := G1BarrierSet.skip_young_loop
             (G1BarrierSet.span (byte_for (mr_start mr)) ck)
             (byte_for (mr_start mr)) ck (byte_map vm) in
  let l := cards_to_dirty (byte_map vm) (G1BarrierSet.span r ck) r in
  let vm' := G1BarrierSet.invalidate thr mr vm in
  (∀ b, byte_map vm' b = if decide (b ∈ l) then dirty_card_val else byte_map vm b) ∧
  records DirtyCard (queue_for thr) vm' = records DirtyCard (queue_for thr) vm ++ l ∧
  others_untouched DirtyCard (queue_for thr) vm vm' ∧
  family_untouched SATB vm vm' ∧
  trace vm' = trace vm ++ (if decide (r ≤ ck) then invalidate_events thr l else []).
Proof.
  intros Hne ck r l vm'. unfold vm', G1BarrierSet.invalidate. rewrite Hne.
  fold ck. fold r.
  destruct (Z.leb_spec r ck) as [Hle|Hgt].
  - rewrite decide_True by done.
    set (vm0 := G1BarrierSet.storeload vm).
    assert (∀ k, family_untouched k vm0 vm) as Hback
      by (intros []; split; reflexivity).
    destruct thr as [jt|]; cbn [queue_for invalidate_events].
    + destruct (dirty_loop_effect (ThreadQ jt) (G1BarrierSet.span r ck) r vm0)
        as (Hb & Hr & Ho & Hf & Ht).
      change (byte_map vm0) with (byte_map vm) in Hb, Hr, Ht. fold l in Hb, Hr, Ht.
      split; [exact Hb|]. split; [exact Hr|].
      split; [|split].
      * eapply others_untouched_proper;
          [apply Hback | apply family_untouched_refl | apply Ho].
      * eapply family_untouched_trans; [apply family_untouched_log | apply Hf].
      * rewrite Ht. unfold vm0. cbn [G1BarrierSet.storeload log trace].
        by rewrite <- app_assoc.
    + set (vm1 := G1BarrierSet.lock Shared_DirtyCardQ_lock vm0).
      destruct (dirty_loop_effect SharedQ (G1BarrierSet.span r ck) r vm1)
        as (Hb & Hr & Ho & Hf & Ht).
      change (byte_map vm1) with (byte_map vm) in Hb, Hr, Ht. fold l in Hb, Hr, Ht.
      assert (∀ k, family_untouched k vm1 vm) as Hback1
        by (intros []; split; reflexivity).
      unfold G1BarrierSet.unlock.
      split; [exact Hb|].
      split; [rewrite records_log; exact Hr|].
      split; [|split].
      * eapply others_untouched_proper;
          [apply Hback1 | apply family_untouched_log | apply Ho].
      * eapply family_untouched_trans; [|apply family_untouched_log].
        eapply family_untouched_trans; [|apply Hf].
        eapply family_untouched_trans; apply family_untouched_log.
      * cbn [log trace]. rewrite Ht.
        unfold vm1, vm0.
        cbn [G1BarrierSet.lock G1BarrierSet.storeload log trace].
        rewrite <- !app_assoc. reflexivity.
  - rewrite decide_False by lia.
    assert (l = []) as ->.
    { unfold l, G1BarrierSet.span. by replace (Z.to_nat (ck - r + 1)) with 0%nat by lia. }
    rewrite !app_nil_r. split; [|split; [|split; [|split]]];
      first [done | apply family_untouched_refl].
Qed.

Lemma elem_of_invalidate_events thr l k q x :
  EvEnqueue k q x ∈ invalidate_events thr l → x ∈ l.
Proof.
  unfold invalidate_events. rewrite elem_of_cons. intros [?|Hin]; [discriminate|].
  destruct thr as [jt|].
  - apply list_elem_of_fmap in Hin as (y & [= _ _ ->] & Hy). exact Hy.
  - rewrite elem_of_cons, elem_of_app, elem_of_cons, elem_of_nil in Hin.
    destruct Hin as [?|[Hin|[?|[]]]]; try discriminate.
    apply list_elem_of_fmap in Hin as (y & [= _ _ ->] & Hy). exact Hy.
Qed.

(** C2.  On a non-empty region whose cards [c0..ck] are young up to [m] and
    clean after it, [invalidate] leaves the young cards, and every card
    outside the region, as they are, makes every clean card dirty, and
    enqueues the clean cards, once each and in address order, on the
    caller's dirty-card queue and on no other; a thread that is not a
    mutator does so inside one scope of the shared queue's lock.  On an
    empty region, for any thread and in any state, it changes nothing. *)
Theorem invalidate_young_prefix_clean_suffix
    (thr : Thread) (mr : MemRegion) (m : address) (vm : VM) :
  let c0 := byte_for (mr_start mr) in
  let ck := byte_for (MemRegion.last mr) in
  let vm' := G1BarrierSet.invalidate thr mr vm in
  (∀ thr0 mr0 vm0, MemRegion.is_empty mr0 = true →
                   G1BarrierSet.invalidate thr0 mr0 vm0 = vm0) ∧
  (clean_card_val ≠ g1_young_card_val →
   clean_card_val ≠ dirty_card_val →
   MemRegion.is_empty mr = false →
   c0 - 1 ≤ m ≤ ck →
   (∀ b, c0 ≤ b ≤ m → byte_map vm b = g1_young_card_val) →
   (∀ b, m < b ≤ ck → byte_map vm b = clean_card_val) →
   (∀ b, c0 ≤ b ≤ m → byte_map vm' b = byte_map vm b) ∧
   (∀ b, m < b ≤ ck → byte_map vm' b = dirty_card_val) ∧
   (∀ b, ¬ (c0 ≤ b ≤ ck) → byte_map vm' b = byte_map vm b) ∧
   records DirtyCard (queue_for thr) vm' =
     records DirtyCard (queue_for thr) vm ++ seqZ (m + 1) (ck - m) ∧
   others_untouched DirtyCard (queue_for thr) vm vm' ∧
   family_untouched SATB vm vm' ∧
   trace vm' =
     trace vm ++
     (if decide (m < ck) then invalidate_events thr (seqZ (m + 1) (ck - m))
      else [])).
Proof.
  intros c0 ck vm'. split.
  { intros thr0 mr0 vm0 Hempty. unfold G1BarrierSet.invalidate. by rewrite Hempty. }
  intros Hcy Hcd Hne Hm Hyoung Hclean.
  pose proof (invalidate_effect thr mr vm Hne) as Heff. cbv zeta in Heff.
  fold c0 ck vm' in Heff.
  rewrite (skip_young_loop_prefix (byte_map vm) c0 ck m) in Heff;
    [|done|done|intros Hlt; rewrite Hclean by lia; done].
  rewrite cards_to_dirty_all in Heff.
  2:{ intros b Hb. unfold G1BarrierSet.span in Hb. rewrite Hclean by lia. done. }
  replace (Z.of_nat (G1BarrierSet.span (m + 1) ck)) with (ck - m) in Heff
    by (unfold G1BarrierSet.span; lia).
  destruct Heff as (Hb & Hr & Ho & Hf & Ht).
  split; [|split; [|split; [|split; [|split; [|split]]]]].
  - intros b Hin. rewrite Hb, decide_False; [done|]. rewrite elem_of_seqZ. lia.
  - intros b Hin. rewrite Hb, decide_True; [done|]. rewrite elem_of_seqZ. lia.
  - intros b Hout. rewrite Hb, decide_False; [done|]. rewrite elem_of_seqZ. lia.
  - exact Hr.
  - exact Ho.
  - exact Hf.
  - rewrite Ht. f_equal. destruct (decide (m < ck)).
    + by rewrite decide_True by lia.
    + by rewrite decide_False by lia.
Qed.

(** C4 (as amended).  A young card is left young by [invalidate] on any
    region, and [invalidate] enqueues no record for it; the post-write
    barrier, entered through its inline filter, returns on a field of a
    young card without any effect.  The slow path itself does not filter:
    it is guarded by its assertion, and with assertions compiled in a call
    on a young card stops there, before any fence, store or enqueue. *)
Theorem young_card_short_circuit (b : address) (vm : VM) :
  byte_map vm b = g1_young_card_val →
  (∀ thr mr,
     let vm' := G1BarrierSet.invalidate thr mr vm in
     byte_map vm' b = g1_young_card_val ∧
     ∃ l evs,
       records DirtyCard (queue_for thr) vm' =
         records DirtyCard (queue_for thr) vm ++ l ∧
       (b ∉ l) ∧
       others_untouched DirtyCard (queue_for thr) vm vm' ∧
       trace vm' = trace vm ++ evs ∧
       ∀ k q, EvEnqueue k q b ∉ evs) ∧
  (∀ thr field, byte_for field = b →
     G1BarrierSet.write_ref_field_post thr field vm = Ok vm) ∧
  (ASSERT = true →
   ∀ thr, G1BarrierSet.write_ref_field_post_slow thr b vm =
          AssertionFailure "slow path invoked without filtering").
Proof.
  intros Hy. split; [|split].
  - intros thr mr vm'.
    destruct (MemRegion.is_empty mr) eqn:Hempty.
    + assert (vm' = vm) as ->
        by (unfold vm', G1BarrierSet.invalidate; by rewrite Hempty).
      split; [exact Hy|]. exists [], [].
      rewrite !app_nil_r. split_and!; try done.
      * apply not_elem_of_nil.
      * intros k q. apply not_elem_of_nil.
    + pose proof (invalidate_effect thr mr vm Hempty) as Heff. cbv zeta in Heff.
      fold vm' in Heff.
      set (ck := byte_for (MemRegion.last mr)) in *.
      set (r := G1BarrierSet.skip_young_loop _ _ _ _) in *.
      set (l := cards_to_dirty _ _ _) in *.
      destruct Heff as (Hb & Hr & Ho & _ & Ht).
      assert (b ∉ l) as Hnin.
      { unfold l. rewrite elem_of_cards_to_dirty. tauto. }
      split; [by rewrite Hb, decide_False|].
      exists l, (if decide (r ≤ ck) then invalidate_events thr l else []).
      split_and!; try done.
      intros k q Hin. destruct (decide (r ≤ ck)).
      * by apply elem_of_invalidate_events in Hin.
      * by apply not_elem_of_nil in Hin.
  - intros thr field Hfield. unfold G1BarrierSet.write_ref_field_post.
    by rewrite Hfield, Hy, Z.eqb_refl.
  - intros Hdebug thr. unfold G1BarrierSet.write_ref_field_post_slow.
    rewrite assert_debug_false; [reflexivity | exact Hdebug |].
    by rewrite Hy, Z.eqb_refl.
Qed.

(** ** Thread attach and detach *)

(** C7.  On a thread that meets the precondition of [on_thread_attach] (not
    at a safepoint, SATB queue inactive and empty, dirty-card queue
    active), the call returns with the thread's SATB queue active exactly
    when the SATB queue set is active, and empty in both cases; nothing
    else changes. *)
Theorem on_thread_attach_follows_global_flag (thread : tid) (vm : VM) :
  is_at_safepoint vm = false →
  PtrQueue.is_active (queue_of SATB (ThreadQ thread) vm) = false →
  PtrQueue.is_empty (queue_of SATB (ThreadQ thread) vm) = true →
  PtrQueue.is_active (queue_of DirtyCard (ThreadQ thread) vm) = true →
  ∃ vm', G1BarrierSet.on_thread_attach thread vm = Ok vm' ∧
    PtrQueue.is_active (queue_of SATB (ThreadQ thread) vm') =
      PtrQueueSet.is_active (qset SATB vm) ∧
    PtrQueue.is_empty (queue_of SATB (ThreadQ thread) vm') = true ∧
    others_untouched SATB (ThreadQ thread) vm vm' ∧
    qset SATB vm' = qset SATB vm ∧
    family_untouched DirtyCard vm vm' ∧
    byte_map vm' = byte_map vm ∧
    trace vm' = trace vm.
Proof.
  intros Hsafe Hinactive Hempty Hdc. unfold G1BarrierSet.on_thread_attach.
  rewrite !assert_true by (rewrite ?Hsafe, ?Hinactive, ?Hempty, ?Hdc; reflexivity).
  cbn [mbind outcome_bind].
  destruct (PtrQueueSet.is_active (qset SATB vm)) eqn:Hact.
  - eexists. split; [reflexivity|].
    rewrite queue_of_set_queue_eq.
    split; [reflexivity|]. split; [exact Hempty|].
    split; [intros q' Hne; by apply queue_of_set_queue_ne|].
    split; [reflexivity|].
    split; [|done].
    split; [reflexivity|]. intros jt. simpl.
    destruct (decide (thread = jt)) as [->|];
      [rewrite fn_lookup_insert | rewrite fn_lookup_insert_ne by done];
      reflexivity.
  - exists vm. split; [reflexivity|].
    split; [exact Hinactive|]. split; [exact Hempty|].
    split; [by intros q' _|]. split; [reflexivity|].
    split; [apply family_untouched_refl | done].
Qed.

Lemma queue_of_set_completed k k' q c vm :
  queue_of k' q (set_completed k c vm) = queue_of k' q vm.
Proof. by destruct k, k', q. Qed.

Lemma completed_set_completed k c vm :
  _completed_buffers (qset k (set_completed k c vm)) = c.
Proof. by destruct k. Qed.

Lemma completed_set_queue k q pq vm :
  _completed_buffers (qset k (set_queue k q pq vm)) = _completed_buffers (qset k vm).
Proof. by destruct k, q. Qed.

Lemma family_untouched_set_completed k c vm :
  family_untouched (other_kind k) vm (set_completed k c vm).
Proof. by destruct k. Qed.

Lemma family_untouched_set_queue k q pq vm :
  family_untouched (other_kind k) vm (set_queue k q pq vm).
Proof.
  destruct k, q; (split; [reflexivity|]); intros jt0; simpl; try reflexivity;
    (destruct (decide (jt = jt0)) as [->|];
     [rewrite fn_lookup_insert | rewrite fn_lookup_insert_ne by done];
     reflexivity).
Qed.

(** What [PtrQueue::flush] does. *)
Lemma PtrQueue_flush_effect k q vm :
  let vm' := PtrQueue.flush k q vm in
  _buf (queue_of k q vm') = [] ∧
  _completed_buffers (qset k vm') =
    _completed_buffers (qset k vm) ++ handed_off (_buf (queue_of k q vm)) ∧
  others_untouched k q vm vm' ∧
  family_untouched (other_kind k) vm vm'.
Proof.
  unfold PtrQueue.flush. cbv zeta.
  destruct (_buf (queue_of k q vm)) as [|x buf] eqn:Hbuf.
  - cbn [handed_off]. rewrite app_nil_r.
    split; [exact Hbuf|]. split; [reflexivity|]. split; [by intros q' _|].
    apply family_untouched_refl.
  - cbn [handed_off].
    rewrite queue_of_set_completed, queue_of_set_queue_eq, completed_set_completed.
    split; [reflexivity|]. split; [reflexivity|]. split.
    + intros q' Hne. rewrite queue_of_set_completed.
      by apply queue_of_set_queue_ne.
    + eapply family_untouched_trans;
        [apply family_untouched_set_queue | apply family_untouched_set_completed].
Qed.

Lemma elem_of_concat (x : Z) (bufs : list (list Z)) :
  x ∈ concat bufs ↔ ∃ buf, buf ∈ bufs ∧ x ∈ buf.
Proof.
  induction bufs as [|b bufs IH]; cbn [concat].
  - split; [by intros ?%not_elem_of_nil | by intros (? & ?%not_elem_of_nil & _)].
  - rewrite elem_of_app, IH. split.
    + intros [Hb|(buf & Hin & Hx)].
      * exists b. split; [apply elem_of_cons; by left | exact Hb].
      * exists buf. split; [apply elem_of_cons; by right | exact Hx].
    + intros (buf & [->|Hin]%elem_of_cons & Hx); [by left | right; by exists buf].
Qed.

(** C8.  After [on_thread_detach], whatever the base class's bookkeeping
    did, the thread's SATB queue and dirty-card queue are both empty, and
    each set's completed list is the list the bookkeeping left followed by
    the buffer the thread then held (if it held any record): the two
    flushes lose no record and touch no other queue.  Hence every record
    the thread held at detach time, if the bookkeeping did not drop it, is
    in a completed buffer of its set afterwards. *)
Theorem on_thread_detach_flushes_both (thread : tid) (vm : VM) :
  let vm0 := CardTableBarrierSet_on_thread_detach thread vm in
  let vm' := G1BarrierSet.on_thread_detach thread vm in
  ∀ k,
    PtrQueue.is_empty (queue_of k (ThreadQ thread) vm') = true ∧
    _completed_buffers (qset k vm') =
      _completed_buffers (qset k vm0) ++
      handed_off (_buf (queue_of k (ThreadQ thread) vm0)) ∧
    records k (ThreadQ thread) vm' = records k (ThreadQ thread) vm0 ∧
    others_untouched k (ThreadQ thread) vm0 vm' ∧
    (∀ x, x ∈ _buf (queue_of k (ThreadQ thread) vm) →
          x ∈ records k (ThreadQ thread) vm0 →
          ∃ buf, buf ∈ _completed_buffers (qset k vm') ∧ x ∈ buf).
Proof.
  intros vm0 vm' k. unfold vm', G1BarrierSet.on_thread_detach. fold vm0.
  set (vm1 := PtrQueue.flush SATB (ThreadQ thread) vm0).
  destruct (PtrQueue_flush_effect SATB (ThreadQ thread) vm0) as (Hb1 & Hc1 & Ho1 & Hf1).
  destruct (PtrQueue_flush_effect DirtyCard (ThreadQ thread) vm1) as (Hb2 & Hc2 & Ho2 & Hf2).
  fold vm1 in Hb1, Hc1, Ho1, Hf1. cbn [other_kind] in Hf1, Hf2.
  set (vm2 := PtrQueue.flush DirtyCard (ThreadQ thread) vm1) in *.
  assert (_buf (queue_of k (ThreadQ thread) vm2) = [] ∧
          _completed_buffers (qset k vm2) =
            _completed_buffers (qset k vm0) ++
            handed_off (_buf (queue_of k (ThreadQ thread) vm0)) ∧
          others_untouched k (ThreadQ thread) vm0 vm2) as (Hb & Hc & Ho).
  { destruct k.
    - rewrite (family_untouched_queue_of _ _ _ _ Hf2).
      destruct Hf2 as [Hs2 Ht2]. rewrite Hs2.
      split; [exact Hb1|]. split; [exact Hc1|].
      eapply others_untouched_proper;
        [apply family_untouched_refl | split; [exact Hs2 | exact Ht2] | exact Ho1].
    - rewrite (family_untouched_queue_of _ _ _ _ Hf1) in Hc2.
      destruct Hf1 as [Hs Ht]. rewrite Hs in Hc2.
      split; [exact Hb2|]. split; [exact Hc2|].
      eapply others_untouched_proper;
        [| apply family_untouched_refl | apply Ho2].
      split; [symmetry; apply Hs | intros jt; symmetry; apply Ht]. }
  assert (records k (ThreadQ thread) vm2 = records k (ThreadQ thread) vm0) as Hrec.
  { unfold records. rewrite Hb, Hc, concat_app, app_nil_r. f_equal.
    destruct (_buf (queue_of k (ThreadQ thread) vm0)); cbn; [done|].
    by rewrite app_nil_r. }
  split; [unfold PtrQueue.is_empty; by rewrite Hb|].
  split; [exact Hc|]. split; [exact Hrec|]. split; [exact Ho|].
  intros x _ Hx. rewrite <- Hrec in Hx. unfold records in Hx.
  rewrite Hb, app_nil_r in Hx. by apply elem_of_concat.
Qed.

(** ** No null reference in a SATB buffer *)

Lemma satb_no_null_family vm vm' :
  family_untouched SATB vm vm' → satb_no_null vm → satb_no_null vm'.
Proof.
  intros Hf [Hq Hc]. split.
  - intros q. rewrite (family_untouched_queue_of _ _ _ _ Hf). apply Hq.
  - destruct Hf as [Hs _]. rewrite Hs. apply Hc.
Qed.

Lemma satb_no_null_appended q x vm vm' :
  x ≠ NULL →
  appended_to SATB q x vm vm' → others_untouched SATB q vm vm' →
  satb_no_null vm → satb_no_null vm'.
Proof.
  intros Hx Ha Ho [Hq Hc].
  assert (NULL ∉ _buf (queue_of SATB q vm) ++ [x]) as Hnew.
  { rewrite elem_of_app, elem_of_cons, elem_of_nil.
    intros [Hin|[Heq|[]]]; [by apply (Hq q) | by apply Hx]. }
  unfold appended_to in Ha. split.
  - intros q'. destruct (decide (q' = q)) as [->|Hne].
    + destruct (decide _); destruct Ha as [-> _];
        [apply not_elem_of_nil | exact Hnew].
    + rewrite Ho by done. apply Hq.
  - intros buf Hbuf. destruct (decide _); destruct Ha as [_ Hcompl];
      rewrite Hcompl in Hbuf; [|by apply Hc].
    apply elem_of_app in Hbuf as [Hold|Hlast]; [by apply Hc|].
    apply elem_of_cons in Hlast as [->|Hnil]; [exact Hnew|].
    by apply not_elem_of_nil in Hnil.
Qed.

Lemma enqueue_satb_no_null thr r vm vm' :
  r ≠ NULL → satb_no_null vm →
  G1BarrierSet.enqueue thr r vm = Ok vm' → satb_no_null vm'.
Proof.
  intros Hr Hinv Hrun.
  destruct (PtrQueueSet.is_active (qset SATB vm)) eqn:Hact.
  - destruct (enqueue_Ok_active _ _ _ _ Hact Hrun) as (Ha & Ho & _).
    by eapply satb_no_null_appended.
  - by rewrite (enqueue_Ok_inactive _ _ _ _ Hact Hrun).
Qed.

Lemma write_ref_field_post_slow_satb thr byte vm vm' :
  G1BarrierSet.write_ref_field_post_slow thr byte vm = Ok vm' →
  family_untouched SATB vm vm'.
Proof.
  unfold G1BarrierSet.write_ref_field_post_slow.
  destruct (G1BarrierSet.assert _ _); [|discriminate]. cbn [mbind outcome_bind].
  destruct (negb _).
  - set (vm1 := store_byte byte dirty_card_val (G1BarrierSet.storeload vm)).
    assert (family_untouched SATB vm vm1) as Hf1 by (split; reflexivity).
    destruct thr as [jt|]; intros [= <-];
      (eapply family_untouched_trans; [apply Hf1|]).
    + apply (PtrQueue_enqueue_frame DirtyCard (ThreadQ jt) byte vm1).
    + apply (PtrQueue_enqueue_logged DirtyCard SharedQ byte
               (EvLock Shared_DirtyCardQ_lock) (EvUnlock Shared_DirtyCardQ_lock) vm1).
  - intros [= <-]. apply family_untouched_log.
Qed.

Lemma invalidate_satb thr mr vm :
  family_untouched SATB vm (G1BarrierSet.invalidate thr mr vm).
Proof.
  destruct (MemRegion.is_empty mr) eqn:Hempty.
  - unfold G1BarrierSet.invalidate. rewrite Hempty. apply family_untouched_refl.
  - apply (invalidate_effect thr mr vm Hempty).
Qed.

Lemma on_thread_attach_satb_no_null thread vm vm' :
  satb_no_null vm →
  G1BarrierSet.on_thread_attach thread vm = Ok vm' → satb_no_null vm'.
Proof.
  intros [Hq Hc]. unfold G1BarrierSet.on_thread_attach.
  repeat match goal with
         | |- (G1BarrierSet.assert ?p ?m ≫= _) = _ → _ =>
             destruct (G1BarrierSet.assert p m); cbn [mbind outcome_bind];
             [|discriminate]
         end.
  destruct (PtrQueueSet.is_active _); intros <-%Ok_inj; [|by split].
  split.
  - intros q. destruct (decide (q = ThreadQ thread)) as [->|Hne].
    + rewrite queue_of_set_queue_eq. apply (Hq (ThreadQ thread)).
    + rewrite queue_of_set_queue_ne by done. apply Hq.
  - rewrite completed_set_queue. apply Hc.
Qed.

Lemma flush_satb_no_null q vm :
  satb_no_null vm → satb_no_null (PtrQueue.flush SATB q vm).
Proof.
  intros [Hq Hc].
  destruct (PtrQueue_flush_effect SATB q vm) as (Hb & Hcompl & Ho & _).
  split.
  - intros q'. destruct (decide (q' = q)) as [->|Hne].
    + rewrite Hb. apply not_elem_of_nil.
    + rewrite Ho by done. apply Hq.
  - intros buf. rewrite Hcompl, elem_of_app. intros [Hold|Hnew]; [by apply Hc|].
    pose proof (Hq q) as Hqq.
    destruct (_buf (queue_of SATB q vm)) as [|y l]; cbn in Hnew.
    + by apply not_elem_of_nil in Hnew.
    + apply elem_of_cons in Hnew as [->|Hnil]; [exact Hqq|].
      by apply not_elem_of_nil in Hnil.
Qed.

Section Invariant.
Context {T : Type} `{HeapOop T}.

Lemma for_each_slot_satb_no_null thr (mem : address → T) slots vm vm' :
  (∀ v : T, is_null v = false → decode_not_null v ≠ NULL) →
  satb_no_null vm →
  for_each (snapshot_slot thr mem) slots vm = Ok vm' → satb_no_null vm'.
Proof.
  intros Hdec. revert vm. induction slots as [|p ps IH]; intros vm Hinv.
  - by intros [= <-].
  - cbn [for_each]. destruct (snapshot_slot thr mem p vm) as [vm1|] eqn:Hp;
      [|discriminate].
    cbn [mbind outcome_bind]. apply IH.
    unfold snapshot_slot in Hp.
    assert (satb_no_null (log (EvOopLoad p) vm)) as Hinv1
      by (eapply satb_no_null_family; [apply family_untouched_log | exact Hinv]).
    destruct (is_null (mem p)) eqn:Hnull.
    + by injection Hp as <-.
    + eapply enqueue_satb_no_null; [by apply Hdec | exact Hinv1 | exact Hp].
Qed.

(** C9.  Every operation of the barrier set preserves the invariant that no
    SATB buffer, thread-local, shared or completed, holds a null reference,
    provided [enqueue] is given a non-null reference (its precondition);
    the array barrier needs no such proviso, for it enqueues only the
    decoding of slot values it found non-null.  Decoding a non-null slot
    value is taken to give a non-null reference, and the base class's
    detach bookkeeping not to touch the SATB queues. *)
Theorem satb_no_null_preserved (thr : Thread) (op : operation T) (vm vm' : VM) :
  (∀ v : T, is_null v = false → decode_not_null v ≠ NULL) →
  (∀ t s, family_untouched SATB s (CardTableBarrierSet_on_thread_detach t s)) →
  null_filtered op →
  satb_no_null vm →
  run_operation thr op vm = Ok vm' →
  satb_no_null vm'.
Proof.
  intros Hdec Hbase Hpre Hinv.
  destruct op as [pre_val|mem dst count uninit|byte|mr|thread|thread];
    cbn [run_operation null_filtered] in *.
  - by apply enqueue_satb_no_null.
  - unfold G1BarrierSet.write_ref_array_pre, G1BarrierSet.write_ref_array_pre_work.
    destruct uninit; cbn [negb]; [by intros [= <-]|].
    destruct (negb _); [by intros [= <-]|].
    rewrite write_ref_array_pre_loop_slots.
    by apply for_each_slot_satb_no_null.
  - intros Hrun. eapply satb_no_null_family; [|exact Hinv].
    by eapply write_ref_field_post_slow_satb.
  - intros [= <-]. eapply satb_no_null_family; [apply invalidate_satb | exact Hinv].
  - by apply on_thread_attach_satb_no_null.
  - intros [= <-]. unfold G1BarrierSet.on_thread_detach.
    eapply satb_no_null_family.
    { apply (PtrQueue_flush_effect DirtyCard (ThreadQ thread)). }
    apply flush_satb_no_null.
    eapply satb_no_null_family; [apply Hbase | exact Hinv].
Qed.

End Invariant.

(** ** Region invalidation on any card table *)

Lemma seqZ_of_to_nat m z : seqZ m (Z.of_nat (Z.to_nat z)) = seqZ m z.
Proof.
  destruct (decide (0 ≤ z)).
  - by rewrite Z2Nat.id.
  - rewrite !seqZ_nil; [done | lia | lia].
Qed.

Lemma cards_to_dirty_filter bm n byte :
  cards_to_dirty bm n byte =
  filter (needs_dirtying bm) (seqZ byte (Z.of_nat n)).
Proof.
  revert byte. induction n as [|n IH]; intros byte; [reflexivity|].
  cbn [cards_to_dirty]. rewrite seqZ_cons by lia.
  replace (Z.pred (Z.of_nat (S n))) with (Z.of_nat n) by lia.
  replace (Z.succ byte) with (byte + 1) by lia.
  rewrite filter_cons, <- IH. unfold needs_dirtying at 1.
  destruct (Z.eqb_spec (bm byte) g1_young_card_val) as [Hy|Hy];
    destruct (Z.eqb_spec (bm byte) dirty_card_val) as [Hd|Hd]; cbn [orb];
    destruct (decide _) as [[? ?]|Hn]; try done.
  destruct Hn. by split.
Qed.

(** Where the first loop stops, on any card table. *)
Lemma skip_young_loop_spec bm c0 ck :
  let r := G1BarrierSet.skip_young_loop (G1BarrierSet.span c0 ck) c0 ck bm in
  c0 ≤ r ≤ Z.max c0 (ck + 1) ∧
  (∀ b, c0 ≤ b < r → bm b = g1_young_card_val) ∧
  (r ≤ ck → bm r ≠ g1_young_card_val).
Proof.
  unfold G1BarrierSet.span.
  remember (Z.to_nat (ck - c0 + 1)) as n eqn:Hn.
  revert c0 Hn. induction n as [|n IH]; intros c0 Hn; cbn [G1BarrierSet.skip_young_loop].
  - split; [lia|]. split; intros; lia.
  - rewrite (proj2 (Z.leb_le c0 ck)) by lia. cbn [andb].
    destruct (Z.eqb_spec (bm c0) g1_young_card_val) as [Hy|Hy].
    + destruct (IH (c0 + 1) ltac:(lia)) as (Hr & Hpre & Hstop).
      split; [lia|]. split; [|exact Hstop].
      intros b Hb. destruct (decide (b = c0)) as [->|]; [exact Hy|].
      apply Hpre. lia.
    + split; [lia|]. split; [intros; lia | done].
Qed.

Lemma filter_needs_dirtying_young bm l :
  (∀ b, b ∈ l → bm b = g1_young_card_val) →
  filter (needs_dirtying bm) l = [].
Proof.
  intros Hy. apply elem_of_nil_inv. intros b.
  rewrite list_elem_of_filter. intros [[Hny _] Hin]. by apply Hny, Hy.
Qed.

(** The cards to dirty from where the first loop stops are the cards to
    dirty of the whole region: the skipped ones are young. *)
Lemma filter_region_from_stop bm c0 ck r :
  c0 ≤ r ≤ Z.max c0 (ck + 1) →
  (∀ b, c0 ≤ b < r → bm b = g1_young_card_val) →
  filter (needs_dirtying bm) (seqZ c0 (ck - c0 + 1)) =
  filter (needs_dirtying bm) (seqZ r (ck - r + 1)).
Proof.
  intros Hr Hy. destruct (decide (r = c0)) as [->|Hne]; [done|].
  replace (ck - c0 + 1) with ((r - c0) + (ck - r + 1)) by lia.
  rewrite seqZ_app by lia. rewrite list.filter_app.
  rewrite filter_needs_dirtying_young.
  - cbn. do 2 f_equal. lia.
  - intros b ?%elem_of_seqZ. apply Hy. lia.
Qed.

(** The second loop changes nothing when no card needs dirtying. *)
Lemma dirty_loop_nothing_to_do q n byte vm :
  cards_to_dirty (byte_map vm) n byte = [] →
  G1BarrierSet.dirty_loop q n byte vm = vm.
Proof.
  revert byte. induction n as [|n IH]; intros byte; [reflexivity|].
  cbn [cards_to_dirty G1BarrierSet.dirty_loop].
  destruct (byte_map vm byte =? g1_young_card_val); cbn [orb]; [apply IH|].
  destruct (byte_map vm byte =? dirty_card_val); cbn [negb]; [apply IH|].
  discriminate.
Qed.

(** The cards [invalidate] dirties and enqueues, as a list read off the
    region. *)
Lemma invalidate_worklist mr vm :
  let ck := byte_for (MemRegion.last mr) in
  let r := G1BarrierSet.skip_young_loop
             (G1BarrierSet.span (byte_for (mr_start mr)) ck)
             (byte_for (mr_start mr)) ck (byte_map vm) in
  cards_to_dirty (byte_map vm) (G1BarrierSet.span r ck) r =
  filter (needs_dirtying (byte_map vm)) (region_cards mr).
Proof.
  intros ck r.
  destruct (skip_young_loop_spec (byte_map vm) (byte_for (mr_start mr)) ck)
    as (Hr & Hpre & _). fold r in Hr, Hpre.
  rewrite cards_to_dirty_filter. unfold G1BarrierSet.span, region_cards.
  rewrite seqZ_of_to_nat. fold ck. symmetry.
  by apply filter_region_from_stop.
Qed.

(** X1.  On a non-empty region, whatever its cards hold, [invalidate] makes
    dirty exactly the region's cards that were neither young nor dirty,
    enqueues exactly those, once each and in ascending address order, on the
    caller's dirty-card queue, and changes no other card, no other
    dirty-card queue and no SATB queue. *)
Theorem invalidate_dirties_exactly_the_clean_cards
    (thr : Thread) (mr : MemRegion) (vm : VM) :
  MemRegion.is_empty mr = false →
  let l := filter (needs_dirtying (byte_map vm)) (region_cards mr) in
  let vm' := G1BarrierSet.invalidate thr mr vm in
  (∀ b, byte_map vm' b =
        if decide (b ∈ l) then dirty_card_val else byte_map vm b) ∧
  records DirtyCard (queue_for thr) vm' =
    records DirtyCard (queue_for thr) vm ++ l ∧
  NoDup l ∧
  others_untouched DirtyCard (queue_for thr) vm vm' ∧
  family_untouched SATB vm vm'.
Proof.
  intros Hne l vm'.
  pose proof (invalidate_effect thr mr vm Hne) as Heff. cbv zeta in Heff.
  rewrite invalidate_worklist in Heff. fold l vm' in Heff.
  destruct Heff as (Hb & Hr & Ho & Hf & _).
  split; [exact Hb|]. split; [exact Hr|]. split; [|by split].
  apply list.NoDup_filter, NoDup_seqZ.
Qed.

(** X2.  A second [invalidate] of the same region, by the same or another
    thread, finds nothing to do: it changes no card and no queue. *)
Theorem invalidate_twice_changes_nothing_more
    (thr thr' : Thread) (mr : MemRegion) (vm : VM) :
  let vm1 := G1BarrierSet.invalidate thr mr vm in
  let vm2 := G1BarrierSet.invalidate thr' mr vm1 in
  byte_map vm2 = byte_map vm1 ∧ ∀ k, family_untouched k vm1 vm2.
Proof.
  intros vm1 vm2.
  destruct (MemRegion.is_empty mr) eqn:Hempty.
  { unfold vm2, G1BarrierSet.invalidate. rewrite Hempty.
    split; [reflexivity | intros k; apply family_untouched_refl]. }
  pose proof (invalidate_effect thr mr vm Hempty) as Heff1. cbv zeta in Heff1.
  rewrite invalidate_worklist in Heff1. fold vm1 in Heff1.
  destruct Heff1 as (Hb1 & _).
  assert (filter (needs_dirtying (byte_map vm1)) (region_cards mr) = []) as Hnil.
  { apply elem_of_nil_inv. intros b. rewrite list_elem_of_filter.
    intros [[Hny Hnd] Hin]. rewrite Hb1 in Hny, Hnd.
    destruct (decide (b ∈ _)) as [|Hnin]; [done|].
    apply Hnin, list_elem_of_filter. by split. }
  pose proof (invalidate_worklist mr vm1) as Hwl. cbv zeta in Hwl. rewrite Hnil in Hwl.
  unfold vm2, G1BarrierSet.invalidate. rewrite Hempty.
  destruct (_ <=? _); [|split; [reflexivity | intros k; apply family_untouched_refl]].
  destruct thr' as [jt|]; rewrite dirty_loop_nothing_to_do by exact Hwl;
    (split; [reflexivity | intros []; split; reflexivity]).
Qed.

(** X3.  On a non-empty region [invalidate] issues its fence exactly when
    some card of the region is not young, and then exactly once, before
    any enqueue; a thread that is not a mutator then takes the shared
    queue's lock once around all its enqueues, even if there are none.
    When every card is young the state is returned as it is. *)
Theorem invalidate_fence_only_past_young_cards
    (thr : Thread) (mr : MemRegion) (vm : VM) :
  MemRegion.is_empty mr = false →
  let l := filter (needs_dirtying (byte_map vm)) (region_cards mr) in
  let vm' := G1BarrierSet.invalidate thr mr vm in
  (Forall (λ b, byte_map vm b = g1_young_card_val) (region_cards mr) →
   vm' = vm) ∧
  (Exists (λ b, byte_map vm b ≠ g1_young_card_val) (region_cards mr) →
   trace vm' = trace vm ++ invalidate_events thr l).
Proof.
  intros Hne l vm'.
  set (c0 := byte_for (mr_start mr)). set (ck := byte_for (MemRegion.last mr)).
  destruct (skip_young_loop_spec (byte_map vm) c0 ck) as (Hr & Hpre & Hstop).
  set (r := G1BarrierSet.skip_young_loop _ _ _ _) in *.
  split.
  - rewrite list.Forall_forall. intros Hall.
    assert (ck < r) as Hgt.
    { destruct (decide (r ≤ ck)) as [Hle|]; [|lia].
      destruct (Hstop Hle). apply Hall. unfold region_cards.
      apply elem_of_seqZ. fold c0 ck. lia. }
    unfold vm', G1BarrierSet.invalidate. rewrite Hne. fold c0 ck r.
    by rewrite (proj2 (Z.leb_gt r ck)) by lia.
  - rewrite list.Exists_exists. intros (b & Hin & Hny).
    unfold region_cards in Hin. apply elem_of_seqZ in Hin. fold c0 ck in Hin.
    assert (r ≤ ck) as Hle.
    { destruct (decide (r ≤ ck)) as [|Hgt]; [done|].
      destruct Hny. apply Hpre. lia. }
    pose proof (invalidate_effect thr mr vm Hne) as Heff. cbv zeta in Heff.
    rewrite invalidate_worklist in Heff. fold l vm' c0 ck r in Heff.
    destruct Heff as (_ & _ & _ & _ & Ht).
    by rewrite decide_True in Ht.
Qed.

(** X4.  After [invalidate] of a region, the post-write slow path on any
    card of the region that was not young finds it dirty: it issues its
    fence and changes neither the card table nor any queue.  The young and
    the dirty card values are taken to differ. *)
Theorem post_slow_after_invalidate_only_fences
    (thr thr' : Thread) (mr : MemRegion) (b : address) (vm : VM) :
  g1_young_card_val ≠ dirty_card_val →
  MemRegion.is_empty mr = false →
  b ∈ region_cards mr →
  byte_map vm b ≠ g1_young_card_val →
  let vm1 := G1BarrierSet.invalidate thr mr vm in
  G1BarrierSet.write_ref_field_post_slow thr' b vm1 =
  Ok (G1BarrierSet.storeload vm1).
Proof.
  intros Hyd Hne Hin Hny vm1.
  apply write_ref_field_post_slow_dirty; [exact Hyd|].
  pose proof (invalidate_effect thr mr vm Hne) as Heff. cbv zeta in Heff.
  rewrite invalidate_worklist in Heff. fold vm1 in Heff.
  destruct Heff as (Hb & _). rewrite Hb.
  destruct (decide (b ∈ _)) as [|Hnin]; [done|].
  destruct (decide (byte_map vm b = dirty_card_val)) as [|Hnd]; [done|].
  destruct Hnin. apply list_elem_of_filter. by split.
Qed.

(** ** The slow path, whatever the card holds *)

(** Every returning call of the slow path. *)
Lemma write_ref_field_post_slow_Ok thr byte vm vm' :
  G1BarrierSet.write_ref_field_post_slow thr byte vm = Ok vm' →
  byte_map vm' byte = dirty_card_val ∧
  (∀ b, b ≠ byte → byte_map vm' b = byte_map vm b) ∧
  is_at_safepoint vm' = is_at_safepoint vm ∧
  family_untouched SATB vm vm' ∧
  others_untouched DirtyCard (queue_for thr) vm vm' ∧
  records DirtyCard (queue_for thr) vm' =
    records DirtyCard (queue_for thr) vm ++
    (if decide (byte_map vm byte = dirty_card_val) then [] else [byte]) ∧
  trace vm' =
    trace vm ++ EvStoreLoad ::
    (if decide (byte_map vm byte = dirty_card_val) then []
     else dirty_card_events thr byte).
Proof.
  unfold G1BarrierSet.write_ref_field_post_slow.
  destruct (G1BarrierSet.assert _ _); [|discriminate]. cbn [mbind outcome_bind].
  unfold G1BarrierSet.storeload.
  change (byte_map (log EvStoreLoad vm) byte) with (byte_map vm byte).
  destruct (Z.eqb_spec (byte_map vm byte) dirty_card_val) as [Hdirty|Hclean];
    cbn [negb].
  - intros <-%Ok_inj. rewrite !decide_True by done. rewrite app_nil_r.
    split; [exact Hdirty|]. split; [reflexivity|]. split; [reflexivity|].
    split; [apply family_untouched_log|]. split; [by intros q' _|].
    split; [apply records_log | reflexivity].
  - rewrite !decide_False by done.
    set (vm1 := store_byte byte dirty_card_val (log EvStoreLoad vm)).
    assert (∀ k, family_untouched k vm vm1) as Hfam1
      by (intros []; split; reflexivity).
    assert (∀ k, family_untouched k vm1 vm) as Hback
      by (intros []; split; reflexivity).
    assert (∃ vm2,
      match thr with
      | JavaThreadPtr jt => Ok (PtrQueue.enqueue DirtyCard (ThreadQ jt) byte vm1)
      | NonJavaThread =>
          Ok (G1BarrierSet.unlock Shared_DirtyCardQ_lock
                (PtrQueue.enqueue DirtyCard SharedQ byte
                   (G1BarrierSet.lock Shared_DirtyCardQ_lock vm1)))
      end = Ok vm2 ∧
      flags_and_cards_kept vm1 vm2 ∧
      family_untouched SATB vm1 vm2 ∧
      appended_to DirtyCard (queue_for thr) byte vm1 vm2 ∧
      others_untouched DirtyCard (queue_for thr) vm1 vm2 ∧
      trace vm2 = trace vm1 ++ dirty_card_events thr byte)
      as (vm2 & -> & (Hbm & Hsp & _) & Hf & Ha & Ho & Htr).
    { destruct thr as [jt|]; (eexists; split; [reflexivity|]).
      - pose proof (PtrQueue_enqueue_frame DirtyCard (ThreadQ jt) byte vm1)
          as (? & ? & ? & ?).
        pose proof (PtrQueue_enqueue_appended DirtyCard (ThreadQ jt) byte vm1).
        done.
      - pose proof (PtrQueue_enqueue_logged DirtyCard SharedQ byte
                      (EvLock Shared_DirtyCardQ_lock)
                      (EvUnlock Shared_DirtyCardQ_lock) vm1)
          as (? & ? & ? & ? & ?).
        done. }
    intros <-%Ok_inj. rewrite Hbm.
    split; [unfold vm1; cbn; apply fn_lookup_insert|].
    split; [intros b Hb; unfold vm1; cbn; by apply fn_lookup_insert_ne|].
    split; [by rewrite Hsp|].
    split; [eapply family_untouched_trans; [apply Hfam1 | apply Hf]|].
    split; [eapply others_untouched_proper;
              [apply Hback | apply family_untouched_refl | apply Ho]|].
    split.
    + rewrite (appended_to_records _ _ _ _ _ Ha). unfold vm1.
      by rewrite records_store_byte, records_log.
    + rewrite Htr. unfold vm1. cbn [store_byte log trace].
      by rewrite <- app_assoc.
Qed.

(** The slow path returns on every card that passes its assertion. *)
Lemma write_ref_field_post_slow_returns thr byte vm :
  ASSERT = false ∨ byte_map vm byte ≠ g1_young_card_val →
  ∃ vm', G1BarrierSet.write_ref_field_post_slow thr byte vm = Ok vm'.
Proof.
  intros Hpre. unfold G1BarrierSet.write_ref_field_post_slow.
  assert (G1BarrierSet.assert (negb (byte_map vm byte =? g1_young_card_val))
            "slow path invoked without filtering" = Ok tt) as ->.
  { unfold G1BarrierSet.assert. destruct Hpre as [->|Hny]; [done|].
    apply Z.eqb_neq in Hny as ->. by rewrite andb_false_r. }
  cbn [mbind outcome_bind]. destruct (negb _); [|eauto]. destruct thr; eauto.
Qed.

(** X5.  A run of slow-path calls by one thread on fields whose cards are
    not young returns; it enqueues one record for each distinct card
    touched that was not dirty at the start, and none for any other card,
    however many fields of a card are written; every card touched is dirty
    at the end, every other card is as it was, and no other queue changes.
    The young and the dirty card values are taken to differ. *)
Theorem post_slow_run_one_record_per_card
    (thr : Thread) (fields : list address) (vm : VM) :
  g1_young_card_val ≠ dirty_card_val →
  Forall (λ field, byte_map vm (byte_for field) ≠ g1_young_card_val) fields →
  ∃ vm' l, post_slow_run thr fields vm = Ok vm' ∧
    records DirtyCard (queue_for thr) vm' =
      records DirtyCard (queue_for thr) vm ++ l ∧
    NoDup l ∧
    (∀ c, c ∈ l ↔ c ∈ byte_for <$> fields ∧ byte_map vm c ≠ dirty_card_val) ∧
    (∀ c, byte_map vm' c =
          if decide (c ∈ byte_for <$> fields) then dirty_card_val
          else byte_map vm c) ∧
    others_untouched DirtyCard (queue_for thr) vm vm' ∧
    family_untouched SATB vm vm'.
Proof.
  intros Hyd. revert vm.
  induction fields as [|f fs IH]; intros vm Hall.
  - exists vm, []. cbn. rewrite app_nil_r.
    split; [reflexivity|]. split; [reflexivity|]. split; [constructor|].
    split; [intros c; split;
              [by intros ?%not_elem_of_nil | by intros [?%not_elem_of_nil _]]|].
    split; [intros c; by rewrite decide_False by apply not_elem_of_nil|].
    split; [by intros q' _ | apply family_untouched_refl].
  - apply Forall_cons_1 in Hall as [Hf Hfs].
    set (c0 := byte_for f) in *.
    destruct (write_ref_field_post_slow_returns thr c0 vm (or_intror Hf))
      as [vm1 Hrun1].
    destruct (write_ref_field_post_slow_Ok _ _ _ _ Hrun1)
      as (Hd1 & Ho1 & _ & Hs1 & Hq1 & Hr1 & _).
    assert (∀ c, byte_map vm1 c =
                 if decide (c = c0) then dirty_card_val else byte_map vm c) as Hbm1.
    { intros c. destruct (decide (c = c0)) as [->|Hne]; [exact Hd1 | by apply Ho1]. }
    destruct (IH vm1) as (vm' & l1 & Hrun & Hr & Hnd & Hin & Hbm & Hq & Hs).
    { eapply list.Forall_impl; [exact Hfs|]. intros f' Hf'. cbn in Hf'. rewrite Hbm1.
      destruct (decide (byte_for f' = c0)).
      - intros Heq. by apply Hyd.
      - exact Hf'. }
    set (x := if decide (byte_map vm c0 = dirty_card_val) then [] else [c0]) in *.
    assert (c0 ∉ l1) as Hc0.
    { rewrite Hin. intros [_ Hnd1]. apply Hnd1. rewrite Hbm1. by rewrite decide_True. }
    exists vm', (x ++ l1).
    split.
    { unfold post_slow_run in *. cbn [for_each]. fold c0. rewrite Hrun1.
      exact Hrun. }
    split; [by rewrite Hr, Hr1, <- app_assoc|].
    split.
    { apply list.NoDup_app. split; [|split; [|exact Hnd]].
      - unfold x. destruct (decide _); [constructor|].
        apply list.NoDup_cons. split; [apply not_elem_of_nil | constructor].
      - intros y Hy. unfold x in Hy. destruct (decide _); [by apply not_elem_of_nil in Hy|].
        apply elem_of_cons in Hy as [->|Hy]; [exact Hc0 | by apply not_elem_of_nil in Hy]. }
    split.
    { intros c. rewrite elem_of_app, Hin, fmap_cons, elem_of_cons. fold c0.
      rewrite Hbm1. unfold x.
      destruct (decide (c = c0)) as [->|Hne].
      - destruct (decide (byte_map vm c0 = dirty_card_val)) as [Hd|Hnd0].
        + rewrite elem_of_nil. tauto.
        + rewrite elem_of_cons. tauto.
      - destruct (decide (byte_map vm c0 = dirty_card_val));
          rewrite ?elem_of_cons, ?elem_of_nil; tauto. }
    split.
    { intros c. rewrite Hbm, Hbm1, fmap_cons. fold c0.
      destruct (decide (c ∈ byte_for <$> fs)) as [Hcin|Hcnin].
      - by rewrite decide_True by (apply elem_of_cons; by right).
      - destruct (decide (c = c0)) as [->|Hne].
        + by rewrite decide_True by (apply elem_of_cons; by left).
        + rewrite decide_False; [done|]. rewrite elem_of_cons. tauto. }
    split; [eapply others_untouched_trans; eassumption|].
    eapply family_untouched_trans; eassumption.
Qed.

(** X6.  In a build without assertions the slow path returns on every card,
    a young one included: the card is dirty afterwards, every other card is
    as it was, and the card's address is enqueued on the caller's queue,
    and on no other, exactly when the card was not dirty before. *)
Theorem write_ref_field_post_slow_product_build
    (thr : Thread) (byte : address) (vm : VM) :
  ASSERT = false →
  ∃ vm', G1BarrierSet.write_ref_field_post_slow thr byte vm = Ok vm' ∧
    byte_map vm' byte = dirty_card_val ∧
    (∀ b, b ≠ byte → byte_map vm' b = byte_map vm b) ∧
    records DirtyCard (queue_for thr) vm' =
      records DirtyCard (queue_for thr) vm ++
      (if decide (byte_map vm byte = dirty_card_val) then [] else [byte]) ∧
    others_untouched DirtyCard (queue_for thr) vm vm' ∧
    family_untouched SATB vm vm'.
Proof.
  intros Hprod.
  destruct (write_ref_field_post_slow_returns thr byte vm (or_introl Hprod))
    as [vm' Hrun].
  destruct (write_ref_field_post_slow_Ok _ _ _ _ Hrun) as (? & ? & _ & ? & ? & ? & _).
  by exists vm'.
Qed.

(** ** Returning and failing *)

Lemma enqueue_debug_returns_iff thr r vm :
  ASSERT = true →
  (∃ vm', G1BarrierSet.enqueue thr r vm = Ok vm') ↔
  G1BarrierSet.is_oop r true = true.
Proof.
  intros Hdebug. unfold G1BarrierSet.enqueue, G1BarrierSet.assert. rewrite Hdebug.
  destruct (G1BarrierSet.is_oop r true); cbn [andb negb mbind outcome_bind].
  - split; [done|]. intros _. destruct (negb _); [eauto|]. destruct thr; eauto.
  - split; [by intros [? ?] | done].
Qed.

(** How [on_thread_attach] returns, when it does. *)
Lemma on_thread_attach_Ok thread vm vm' :
  G1BarrierSet.on_thread_attach thread vm = Ok vm' →
  vm' = if PtrQueueSet.is_active (qset SATB vm)
        then set_queue SATB (ThreadQ thread)
               (PtrQueue.set_active true (queue_of SATB (ThreadQ thread) vm)) vm
        else vm.
Proof.
  unfold G1BarrierSet.on_thread_attach.
  repeat match goal with
         | |- (G1BarrierSet.assert ?p ?m ≫= _) = _ → _ =>
             destruct (G1BarrierSet.assert p m); cbn [mbind outcome_bind];
             [|discriminate]
         end.
  by destruct (PtrQueueSet.is_active _); intros <-%Ok_inj.
Qed.

(** X9.  In a build with assertions [on_thread_attach] returns exactly when
    its four preconditions hold: not at a safepoint, the thread's SATB
    queue inactive and empty, its dirty-card queue active. *)
Theorem on_thread_attach_returns_iff_precondition (thread : tid) (vm : VM) :
  ASSERT = true →
  (∃ vm', G1BarrierSet.on_thread_attach thread vm = Ok vm') ↔
  is_at_safepoint vm = false ∧
  PtrQueue.is_active (queue_of SATB (ThreadQ thread) vm) = false ∧
  PtrQueue.is_empty (queue_of SATB (ThreadQ thread) vm) = true ∧
  PtrQueue.is_active (queue_of DirtyCard (ThreadQ thread) vm) = true.
Proof.
  intros Hdebug. unfold G1BarrierSet.on_thread_attach, G1BarrierSet.assert.
  rewrite Hdebug.
  destruct (is_at_safepoint vm); cbn [andb negb mbind outcome_bind];
    [split; [by intros [? ?] | by intros [? _]]|].
  destruct (PtrQueue.is_active (queue_of SATB (ThreadQ thread) vm));
    cbn [andb negb mbind outcome_bind];
    [split; [by intros [? ?] | by intros (_ & ? & _)]|].
  destruct (PtrQueue.is_empty (queue_of SATB (ThreadQ thread) vm));
    cbn [andb negb mbind outcome_bind];
    [|split; [by intros [? ?] | by intros (_ & _ & ? & _)]].
  destruct (PtrQueue.is_active (queue_of DirtyCard (ThreadQ thread) vm));
    cbn [andb negb mbind outcome_bind];
    [|split; [by intros [? ?] | by intros (_ & _ & _ & ?)]].
  split; [done|]. intros _. destruct (PtrQueueSet.is_active _); eauto.
Qed.

(** X10.  Whenever [on_thread_attach] returns, with or without its
    preconditions, it has changed no buffer's contents, no queue set, no
    dirty-card queue, no card and no log entry; the only field it may
    change is the active flag of the thread's SATB queue, which it sets when
    the SATB queue set is active and never clears. *)
Theorem on_thread_attach_only_sets_the_flag (thread : tid) (vm vm' : VM) :
  G1BarrierSet.on_thread_attach thread vm = Ok vm' →
  PtrQueue.is_active (queue_of SATB (ThreadQ thread) vm') =
    PtrQueueSet.is_active (qset SATB vm) ||
    PtrQueue.is_active (queue_of SATB (ThreadQ thread) vm) ∧
  (∀ k q, _buf (queue_of k q vm') = _buf (queue_of k q vm)) ∧
  (∀ k, qset k vm' = qset k vm) ∧
  others_untouched SATB (ThreadQ thread) vm vm' ∧
  family_untouched DirtyCard vm vm' ∧
  byte_map vm' = byte_map vm ∧
  is_at_safepoint vm' = is_at_safepoint vm ∧
  trace vm' = trace vm.
Proof.
  intros ->%on_thread_attach_Ok.
  destruct (PtrQueueSet.is_active (qset SATB vm)) eqn:Hact; cbn [orb].
  - rewrite queue_of_set_queue_eq. split; [reflexivity|].
    split.
    { intros k q.
      destruct (decide (k = SATB ∧ q = ThreadQ thread)) as [[-> ->]|Hne].
      - by rewrite queue_of_set_queue_eq.
      - destruct k.
        + rewrite queue_of_set_queue_ne; [done|]. intros ->. by apply Hne.
        + by rewrite (family_untouched_queue_of DirtyCard q _ _
                        (family_untouched_set_queue SATB _ _ vm)). }
    split; [by intros []|].
    split; [intros q' Hne; by apply queue_of_set_queue_ne|].
    split; [apply (family_untouched_set_queue SATB) | done].
  - split; [reflexivity|]. split; [done|]. split; [done|].
    split; [by intros q' _|]. split; [apply family_untouched_refl | done].
Qed.

(** ** The array barrier: chunks, failures, entry points *)

Lemma for_each_app f ps1 ps2 vm :
  for_each f (ps1 ++ ps2) vm = for_each f ps1 vm ≫= for_each f ps2.
Proof.
  revert vm. induction ps1 as [|p ps1 IH]; intros vm; [reflexivity|].
  cbn [app for_each]. destruct (f p vm) as [vm1|]; cbn [mbind outcome_bind];
    [apply IH | reflexivity].
Qed.

Section ArrayPreMore.
Context {T : Type} `{HeapOop T}.

(** The loop run on an active queue set leaves it active. *)
Lemma for_each_slot_stays_active thr (mem : address → T) slots vm vm' :
  PtrQueueSet.is_active (qset SATB vm) = true →
  for_each (snapshot_slot thr mem) slots vm = Ok vm' →
  PtrQueueSet.is_active (qset SATB vm') = true.
Proof.
  intros Hact Hrun.
  destruct (for_each_slot_active _ _ _ _ _ Hact Hrun) as (_ & _ & _ & Hk & _).
  destruct Hk as (_ & _ & Hall & _). unfold PtrQueueSet.is_active.
  by rewrite Hall.
Qed.

(** X7.  The array barrier over [n1 + n2] slots is the barrier over the
    first [n1] slots followed by the barrier over the next [n2]: an array
    copy may be cut into chunks without changing what is recorded, in any
    state and build, failures included. *)
Theorem write_ref_array_pre_in_chunks
    (thr : Thread) (mem : address → T) (dst : address) (n1 n2 : N) (vm : VM) :
  G1BarrierSet.write_ref_array_pre thr mem dst (n1 + n2) false vm =
  G1BarrierSet.write_ref_array_pre thr mem dst n1 false vm ≫=
  G1BarrierSet.write_ref_array_pre thr mem (dst + Z.of_N n1) n2 false.
Proof.
  unfold G1BarrierSet.write_ref_array_pre, G1BarrierSet.write_ref_array_pre_work.
  cbn [negb].
  destruct (PtrQueueSet.is_active (qset SATB vm)) eqn:Hact; cbn [negb].
  - rewrite !write_ref_array_pre_loop_slots, !N_nat_Z, N2Z.inj_add.
    rewrite seqZ_app by lia. rewrite for_each_app.
    destruct (for_each _ (seqZ dst (Z.of_N n1)) vm) as [vm1|] eqn:Hrun;
      cbn [mbind outcome_bind]; [|reflexivity].
    rewrite (for_each_slot_stays_active _ _ _ _ _ Hact Hrun). cbn [negb].
    by rewrite write_ref_array_pre_loop_slots, N_nat_Z.
  - cbn [mbind outcome_bind]. by rewrite Hact.
Qed.

Lemma for_each_slot_debug_returns_iff thr (mem : address → T) slots vm :
  ASSERT = true →
  (∃ vm', for_each (snapshot_slot thr mem) slots vm = Ok vm') ↔
  ∀ p, p ∈ slots → is_null (mem p) = false →
       G1BarrierSet.is_oop (decode_not_null (mem p)) true = true.
Proof.
  intros Hdebug. revert vm. induction slots as [|p ps IH]; intros vm.
  - split; [intros _ p ?%not_elem_of_nil; done | intros _; by exists vm].
  - cbn [for_each]. split.
    + intros [vm' Hrun].
      destruct (snapshot_slot thr mem p vm) as [vm1|] eqn:Hp; [|discriminate].
      cbn [mbind outcome_bind] in Hrun.
      intros p' [->|Hin]%elem_of_cons Hnn.
      * unfold snapshot_slot in Hp. rewrite Hnn in Hp.
        apply (enqueue_debug_returns_iff thr _ (log (EvOopLoad p) vm) Hdebug).
        by exists vm1.
      * by apply (proj1 (IH vm1) (ex_intro _ vm' Hrun)).
    + intros Hall.
      assert (∃ vm1, snapshot_slot thr mem p vm = Ok vm1) as [vm1 ->].
      { unfold snapshot_slot. destruct (is_null (mem p)) eqn:Hnull; [eauto|].
        apply (enqueue_debug_returns_iff thr _ _ Hdebug).
        apply Hall; [apply elem_of_cons; by left | exact Hnull]. }
      cbn [mbind outcome_bind]. apply IH.
      intros p' Hin. apply Hall, elem_of_cons. by right.
Qed.

(** X8.  In a build with assertions the array barrier with
    [dest_uninitialized = false] returns exactly when the SATB queue set is
    inactive or every non-null slot among the [count] decodes to a
    reference that [is_oop] accepts; otherwise it stops at the assertion of
    [enqueue]. *)
Theorem write_ref_array_pre_debug_returns_iff
    (thr : Thread) (mem : address → T) (dst : address) (count : N) (vm : VM) :
  ASSERT = true →
  (∃ vm', G1BarrierSet.write_ref_array_pre thr mem dst count false vm = Ok vm') ↔
  (PtrQueueSet.is_active (qset SATB vm) = false ∨
   ∀ p, p ∈ seqZ dst (Z.of_N count) → is_null (mem p) = false →
        G1BarrierSet.is_oop (decode_not_null (mem p)) true = true).
Proof.
  intros Hdebug.
  unfold G1BarrierSet.write_ref_array_pre, G1BarrierSet.write_ref_array_pre_work.
  cbn [negb].
  destruct (PtrQueueSet.is_active (qset SATB vm)); cbn [negb].
  - rewrite write_ref_array_pre_loop_slots, N_nat_Z.
    rewrite (for_each_slot_debug_returns_iff thr mem _ vm Hdebug).
    split; [by right | by intros [?|?]].
  - split; [by left | intros _; by exists vm].
Qed.

(** X11.  The pre-write barriers, [enqueue] and the array barrier, never
    touch the card table, a dirty-card queue, the safepoint flag or any
    activity flag, whether the SATB queue set is active or not. *)
Theorem pre_write_leaves_cards_alone
    (thr : Thread) (op : operation T) (vm vm' : VM) :
  is_pre_write op = true →
  run_operation thr op vm = Ok vm' →
  flags_and_cards_kept vm vm' ∧ family_untouched DirtyCard vm vm'.
Proof.
  destruct op as [r|mem dst count uninit| | | |]; try discriminate; intros _;
    cbn [run_operation].
  - intros Hrun. destruct (PtrQueueSet.is_active (qset SATB vm)) eqn:Hact.
    + by destruct (enqueue_Ok_active _ _ _ _ Hact Hrun) as (_ & _ & ? & ? & _).
    + rewrite (enqueue_Ok_inactive _ _ _ _ Hact Hrun).
      split; [apply flags_and_cards_kept_refl | apply family_untouched_refl].
  - unfold G1BarrierSet.write_ref_array_pre, G1BarrierSet.write_ref_array_pre_work.
    destruct uninit; cbn [negb].
    { intros <-%Ok_inj.
      split; [apply flags_and_cards_kept_refl | apply family_untouched_refl]. }
    destruct (PtrQueueSet.is_active (qset SATB vm)) eqn:Hact; cbn [negb].
    + rewrite write_ref_array_pre_loop_slots. intros Hrun.
      by destruct (for_each_slot_active _ _ _ _ _ Hact Hrun) as (_ & _ & ? & ? & _).
    + intros <-%Ok_inj.
      split; [apply flags_and_cards_kept_refl | apply family_untouched_refl].
Qed.

(** X12.  The card-marking operations, the post-write slow path and
    [invalidate], never touch a SATB queue or the safepoint flag, and the
    only value they ever store in the card table is dirty: each card is as
    it was or dirty. *)
Theorem card_marking_leaves_satb_alone
    (thr : Thread) (op : operation T) (vm vm' : VM) :
  is_card_marking op = true →
  run_operation thr op vm = Ok vm' →
  family_untouched SATB vm vm' ∧
  (∀ b, byte_map vm' b = byte_map vm b ∨ byte_map vm' b = dirty_card_val).
Proof.
  destruct op as [| |byte|mr| |]; try discriminate; intros _; cbn [run_operation].
  - intros Hrun.
    destruct (write_ref_field_post_slow_Ok _ _ _ _ Hrun) as (Hd & Ho & _ & Hs & _).
    split; [exact Hs|]. intros b.
    destruct (decide (b = byte)) as [->|Hne]; [by right | left; by apply Ho].
  - intros <-%Ok_inj. split; [apply invalidate_satb|]. intros b.
    destruct (MemRegion.is_empty mr) eqn:Hempty.
    + left. unfold G1BarrierSet.invalidate. by rewrite Hempty.
    + destruct (invalidate_effect thr mr vm Hempty) as (Hb & _). rewrite Hb.
      destruct (decide _); [by right | by left].
Qed.

End ArrayPreMore.

(** ** Lock scopes and thread confinement *)

Lemma run_locks_app held evs1 evs2 :
  run_locks held (evs1 ++ evs2) =
  run_locks held evs1 ≫= λ held', run_locks held' evs2.
Proof.
  revert held. induction evs1 as [|e evs1 IH]; intros held; [reflexivity|].
  destruct e as [|m|m|p|k [jt|] x]; cbn [app run_locks]; try apply IH.
  - destruct (decide _); [reflexivity | apply IH].
  - destruct held as [|m' held']; [reflexivity|].
    destruct (decide _); [apply IH | reflexivity].
  - destruct (decide _); [apply IH | reflexivity].
Qed.

Lemma run_locks_concat evss :
  Forall (λ evs, run_locks [] evs = Some []) evss →
  run_locks [] (concat evss) = Some [].
Proof.
  induction 1 as [|evs evss Hevs _ IH]; [reflexivity|].
  cbn [concat]. rewrite run_locks_app, Hevs. exact IH.
Qed.

Lemma run_locks_thread_enqueues k jt held l :
  run_locks held (EvEnqueue k (ThreadQ jt) <$> l) = Some held.
Proof. induction l as [|x l IH]; [reflexivity | exact IH]. Qed.

Lemma run_locks_shared_enqueues k held l :
  lock_of k ∈ held →
  run_locks held (EvEnqueue k SharedQ <$> l) = Some held.
Proof.
  intros Hheld. induction l as [|x l IH]; [reflexivity|].
  cbn [fmap list_fmap run_locks]. by rewrite decide_True.
Qed.

Lemma enqueue_events_scoped thr x : run_locks [] (enqueue_events thr x) = Some [].
Proof. by destruct thr. Qed.

Lemma dirty_card_events_scoped thr x :
  run_locks [] (dirty_card_events thr x) = Some [].
Proof. by destruct thr. Qed.

Lemma invalidate_events_scoped thr l :
  run_locks [] (invalidate_events thr l) = Some [].
Proof.
  destruct thr as [jt|]; cbn [invalidate_events run_locks].
  - apply run_locks_thread_enqueues.
  - rewrite decide_False by apply not_elem_of_nil.
    rewrite run_locks_app, (run_locks_shared_enqueues DirtyCard).
    + cbn. by rewrite decide_True.
    + apply elem_of_cons. by left.
Qed.

Lemma invalidate_events_mutator jt l :
  Forall (λ e, is_lock_event e = false) (invalidate_events (JavaThreadPtr jt) l).
Proof.
  constructor; [reflexivity|]. apply list.Forall_forall.
  by intros e (x & -> & _)%list_elem_of_fmap.
Qed.

Lemma trace_flush k q vm : trace (PtrQueue.flush k q vm) = trace vm.
Proof.
  unfold PtrQueue.flush. cbv zeta.
  destruct (_buf (queue_of k q vm)); [reflexivity|]. by destruct k, q.
Qed.

Lemma family_untouched_others k q vm vm' :
  family_untouched k vm vm' → others_untouched k q vm vm'.
Proof. intros Hf q' _. by apply family_untouched_queue_of. Qed.

Section Discipline.
Context {T : Type} `{HeapOop T}.

Lemma slot_events_scoped thr (mem : address → T) slots :
  run_locks [] (concat (slot_events thr mem <$> slots)) = Some [].
Proof.
  apply run_locks_concat, list.Forall_forall.
  intros evs (p & -> & _)%list_elem_of_fmap. unfold slot_events.
  cbn [run_locks]. destruct (is_null (mem p)); [reflexivity|].
  apply enqueue_events_scoped.
Qed.

Lemma slot_events_mutator jt (mem : address → T) slots :
  Forall (λ e, is_lock_event e = false)
         (concat (slot_events (JavaThreadPtr jt) mem <$> slots)).
Proof.
  induction slots as [|p ps IH]; [constructor|].
  cbn [fmap list_fmap concat]. apply Forall_app. split; [|exact IH].
  unfold slot_events. constructor; [reflexivity|].
  destruct (is_null (mem p)); by repeat constructor.
Qed.

(** X13.  Whatever an operation adds to the log respects the locks: each
    lock is taken while free and released by the scope that took it, none
    is held on return, and every enqueue into a shared queue happens under
    that queue's lock.  A mutator thread never takes a lock at all.  The
    base class's detach bookkeeping is taken to log nothing. *)
Theorem locks_are_scoped_and_mutators_lock_free
    (thr : Thread) (op : operation T) (vm vm' : VM) :
  (∀ t s, trace (CardTableBarrierSet_on_thread_detach t s) = trace s) →
  run_operation thr op vm = Ok vm' →
  ∃ evs, trace vm' = trace vm ++ evs ∧
    run_locks [] evs = Some [] ∧
    (is_Java_thread thr = true → Forall (λ e, is_lock_event e = false) evs).
Proof.
  intros Hbase.
  assert (∀ s s', trace s' = trace s →
            ∃ evs, trace s' = trace s ++ evs ∧ run_locks [] evs = Some [] ∧
              (is_Java_thread thr = true →
               Forall (λ e, is_lock_event e = false) evs)) as Hsame.
  { intros s s' Heq. exists []. rewrite app_nil_r. by split. }
  destruct op as [r|mem dst count uninit|byte|mr|thread|thread];
    cbn [run_operation].
  - intros Hrun. destruct (PtrQueueSet.is_active (qset SATB vm)) eqn:Hact.
    + destruct (enqueue_Ok_active _ _ _ _ Hact Hrun) as (_ & _ & _ & _ & Htr).
      exists (enqueue_events thr r). split; [exact Htr|].
      split; [apply enqueue_events_scoped|].
      destruct thr; [intros _ | discriminate]. by repeat constructor.
    + apply Hsame. by rewrite (enqueue_Ok_inactive _ _ _ _ Hact Hrun).
  - unfold G1BarrierSet.write_ref_array_pre, G1BarrierSet.write_ref_array_pre_work.
    destruct uninit; cbn [negb]; [intros <-%Ok_inj; by apply Hsame|].
    destruct (PtrQueueSet.is_active (qset SATB vm)) eqn:Hact; cbn [negb];
      [|intros <-%Ok_inj; by apply Hsame].
    rewrite write_ref_array_pre_loop_slots. intros Hrun.
    destruct (for_each_slot_active _ _ _ _ _ Hact Hrun) as (_ & _ & _ & _ & Htr).
    eexists. split; [exact Htr|]. split; [apply slot_events_scoped|].
    destruct thr; [intros _ | discriminate]. apply slot_events_mutator.
  - intros Hrun.
    destruct (write_ref_field_post_slow_Ok _ _ _ _ Hrun) as (_ & _ & _ & _ & _ & _ & Htr).
    eexists. split; [exact Htr|].
    destruct (decide _); cbn [run_locks].
    + split; [reflexivity | intros _; by repeat constructor].
    + split; [apply dirty_card_events_scoped|].
      destruct thr; [intros _ | discriminate]. by repeat constructor.
  - intros <-%Ok_inj. destruct (MemRegion.is_empty mr) eqn:Hempty.
    + apply Hsame. unfold G1BarrierSet.invalidate. by rewrite Hempty.
    + destruct (invalidate_effect thr mr vm Hempty) as (_ & _ & _ & _ & Htr).
      eexists. split; [exact Htr|]. destruct (decide _).
      * split; [apply invalidate_events_scoped|].
        destruct thr; [intros _ | discriminate]. apply invalidate_events_mutator.
      * split; [reflexivity | intros _; constructor].
  - intros ->%on_thread_attach_Ok. apply Hsame.
    by destruct (PtrQueueSet.is_active _).
  - intros <-%Ok_inj. apply Hsame. unfold G1BarrierSet.on_thread_detach.
    by rewrite !trace_flush, Hbase.
Qed.

(** X14.  An operation changes at most one current buffer of each family:
    that of the thread being attached or detached, whoever calls, or else
    the caller's own (the shared one for a thread that is not a mutator).
    So in the barriers proper (the pre-write barriers, the post-write slow
    path and [invalidate]) a mutator never touches a shared buffer or
    another thread's, and a thread that is not a mutator never touches a
    thread-local buffer.  The base class's detach bookkeeping is taken not
    to touch the queues. *)
Theorem operations_are_confined_to_one_queue
    (thr : Thread) (op : operation T) (vm vm' : VM) :
  (∀ k t s, family_untouched k s (CardTableBarrierSet_on_thread_detach t s)) →
  run_operation thr op vm = Ok vm' →
  (∀ k, others_untouched k (touched_queue thr op) vm vm') ∧
  (is_pre_write op || is_card_marking op = true →
   match thr with
   | JavaThreadPtr jt =>
       ∀ k, queue_of k SharedQ vm' = queue_of k SharedQ vm ∧
            ∀ jt', jt' ≠ jt →
                   queue_of k (ThreadQ jt') vm' = queue_of k (ThreadQ jt') vm
   | NonJavaThread =>
       ∀ k jt, queue_of k (ThreadQ jt) vm' = queue_of k (ThreadQ jt) vm
   end).
Proof.
  intros Hbase Hrun.
  assert (∀ k, others_untouched k (touched_queue thr op) vm vm') as Hconf.
  { intros k.
    destruct op as [r|mem dst count uninit|byte|mr|thread|thread];
      cbn [run_operation touched_queue] in *.
    - destruct (PtrQueueSet.is_active (qset SATB vm)) eqn:Hact.
      + destruct (enqueue_Ok_active _ _ _ _ Hact Hrun) as (_ & Ho & Hf & _).
        destruct k; [exact Ho | by apply family_untouched_others].
      + rewrite (enqueue_Ok_inactive _ _ _ _ Hact Hrun). by intros q' _.
    - revert Hrun.
      unfold G1BarrierSet.write_ref_array_pre, G1BarrierSet.write_ref_array_pre_work.
      destruct uninit; cbn [negb]; [intros <-%Ok_inj; by intros q' _|].
      destruct (PtrQueueSet.is_active (qset SATB vm)) eqn:Hact; cbn [negb];
        [|intros <-%Ok_inj; by intros q' _].
      rewrite write_ref_array_pre_loop_slots. intros Hrun.
      destruct (for_each_slot_active _ _ _ _ _ Hact Hrun) as (_ & Ho & Hf & _).
      destruct k; [exact Ho | by apply family_untouched_others].
    - destruct (write_ref_field_post_slow_Ok _ _ _ _ Hrun) as (_ & _ & _ & Hs & Ho & _).
      destruct k; [by apply family_untouched_others | exact Ho].
    - apply Ok_inj in Hrun as <-. destruct (MemRegion.is_empty mr) eqn:Hempty.
      + unfold G1BarrierSet.invalidate. rewrite Hempty. by intros q' _.
      + destruct (invalidate_effect thr mr vm Hempty) as (_ & _ & Ho & Hs & _).
        destruct k; [by apply family_untouched_others | exact Ho].
    - apply on_thread_attach_Ok in Hrun as ->.
      destruct (PtrQueueSet.is_active _); [|by intros q' _].
      destruct k.
      + intros q' Hne. by apply queue_of_set_queue_ne.
      + apply family_untouched_others, (family_untouched_set_queue SATB).
    - apply Ok_inj in Hrun as <-. unfold G1BarrierSet.on_thread_detach.
      set (vm0 := CardTableBarrierSet_on_thread_detach thread vm).
      set (vm1 := PtrQueue.flush SATB (ThreadQ thread) vm0).
      destruct (PtrQueue_flush_effect SATB (ThreadQ thread) vm0) as (_ & _ & Ho1 & Hf1).
      destruct (PtrQueue_flush_effect DirtyCard (ThreadQ thread) vm1) as (_ & _ & Ho2 & Hf2).
      fold vm1 in Ho1, Hf1. cbn [other_kind] in Hf1, Hf2.
      eapply others_untouched_trans;
        [apply family_untouched_others, Hbase|].
      destruct k.
      + eapply others_untouched_trans;
          [exact Ho1 | by apply family_untouched_others].
      + eapply others_untouched_trans;
          [by apply family_untouched_others | exact Ho2]. }
  split; [exact Hconf|]. intros Hbarrier.
  assert (touched_queue thr op = queue_for thr) as Htq
    by (destruct op; try reflexivity; discriminate).
  rewrite Htq in Hconf. destruct thr as [jt|]; cbn [queue_for] in Hconf.
  - intros k. split; [by apply Hconf|].
    intros jt' Hne. apply Hconf. congruence.
  - intros k jt. by apply Hconf.
Qed.

End Discipline.

(** X15.  The runtime entry points of the array barrier, for full-width
    and for compressed slots, never take the uninitialized shortcut: when
    one returns with the SATB queue set active, the caller's SATB queue has
    gained the decoded non-null values of the [length] slots, in slot
    order, and the log shows every slot read; with the set inactive the
    state is returned as it is. *)
Theorem write_ref_array_pre_entries_snapshot
    (Ho : HeapOop oop) (Hn : HeapOop G1BarrierSet.narrowOop) (thr : Thread)
    (dst : address) (length : N) (vm : VM) :
  (∀ (mem : address → oop) vm',
     @G1BarrierSet.write_ref_array_pre_oop_entry _ Ho thr mem dst length vm
       = Ok vm' →
     if PtrQueueSet.is_active (qset SATB vm) then
       records SATB (queue_for thr) vm' =
         records SATB (queue_for thr) vm ++
         @snapshot_of oop Ho mem (seqZ dst (Z.of_N length)) ∧
       trace vm' =
         trace vm ++
         concat (@slot_events oop Ho thr mem <$> seqZ dst (Z.of_N length))
     else vm' = vm) ∧
  (∀ (mem : address → G1BarrierSet.narrowOop) vm',
     @G1BarrierSet.write_ref_array_pre_narrow_oop_entry _ Hn thr mem dst length vm
       = Ok vm' →
     if PtrQueueSet.is_active (qset SATB vm) then
       records SATB (queue_for thr) vm' =
         records SATB (queue_for thr) vm ++
         @snapshot_of G1BarrierSet.narrowOop Hn mem (seqZ dst (Z.of_N length)) ∧
       trace vm' =
         trace vm ++
         concat (@slot_events G1BarrierSet.narrowOop Hn thr mem
                   <$> seqZ dst (Z.of_N length))
     else vm' = vm).
Proof.
  assert (∀ (inst : HeapOop Z) (mem : address → Z) vm',
            @G1BarrierSet.write_ref_array_pre _ Z inst thr mem dst length false vm
              = Ok vm' →
            if PtrQueueSet.is_active (qset SATB vm) then
              records SATB (queue_for thr) vm' =
                records SATB (queue_for thr) vm ++
                @snapshot_of Z inst mem (seqZ dst (Z.of_N length)) ∧
              trace vm' =
                trace vm ++
                concat (@slot_events Z inst thr mem <$> seqZ dst (Z.of_N length))
            else vm' = vm) as Hgen.
  { intros inst mem vm'.
    unfold G1BarrierSet.write_ref_array_pre, G1BarrierSet.write_ref_array_pre_work.
    cbn [negb].
    destruct (PtrQueueSet.is_active (qset SATB vm)) eqn:Hact; cbn [negb];
      [|by intros <-%Ok_inj].
    rewrite write_ref_array_pre_loop_slots, N_nat_Z. intros Hrun.
    by destruct (for_each_slot_active _ _ _ _ _ Hact Hrun) as (? & _ & _ & _ & ?). }
  split; intros mem vm'; apply Hgen.
Qed.

(** ** Who writes the activity flags *)

Lemma active_flags_kept_refl vm : active_flags_kept vm vm.
Proof. by split. Qed.

Lemma active_flags_kept_trans vm1 vm2 vm3 :
  active_flags_kept vm1 vm2 → active_flags_kept vm2 vm3 →
  active_flags_kept vm1 vm3.
Proof.
  intros [Ha1 Hq1] [Ha2 Hq2]. split.
  - intros k. by rewrite Ha2.
  - intros k q. by rewrite Hq2.
Qed.

Lemma active_flags_kept_of_kept vm vm' :
  flags_and_cards_kept vm vm' → active_flags_kept vm vm'.
Proof. by intros (_ & _ & ? & ?). Qed.

Lemma active_flags_kept_families vm vm' :
  (∀ k, family_untouched k vm vm') → active_flags_kept vm vm'.
Proof.
  intros Hf. split.
  - intros k. by destruct (Hf k) as [-> _].
  - intros k q. by rewrite (family_untouched_queue_of _ _ _ _ (Hf k)).
Qed.

Lemma active_flags_kept_dirty_loop q n byte vm :
  active_flags_kept vm (G1BarrierSet.dirty_loop q n byte vm).
Proof.
  revert byte vm. induction n as [|n IH]; intros byte vm;
    [apply active_flags_kept_refl|].
  cbn [G1BarrierSet.dirty_loop].
  destruct (_ =? _); [apply IH|]. destruct (negb _); [|apply IH].
  eapply active_flags_kept_trans; [|apply IH].
  eapply (active_flags_kept_trans _ (store_byte byte dirty_card_val vm)).
  - apply active_flags_kept_families. intros k. apply family_untouched_store_byte.
  - apply active_flags_kept_of_kept, PtrQueue_enqueue_frame.
Qed.

Lemma active_flags_kept_log e vm : active_flags_kept vm (log e vm).
Proof. apply active_flags_kept_of_kept, flags_and_cards_kept_log. Qed.

Lemma active_flags_kept_flush k q vm :
  active_flags_kept vm (PtrQueue.flush k q vm).
Proof.
  unfold PtrQueue.flush. cbv zeta.
  destruct (_buf (queue_of k q vm)); [apply active_flags_kept_refl|].
  split.
  - intros k'. by destruct k, k', q.
  - intros k' q'. rewrite queue_of_set_completed.
    destruct (decide (k' = k)) as [->|Hk].
    + destruct (decide (q' = q)) as [->|Hq].
      * by rewrite queue_of_set_queue_eq.
      * by rewrite queue_of_set_queue_ne.
    + assert (k' = other_kind k) as -> by (by destruct k, k').
      by rewrite (family_untouched_queue_of _ q' _ _
                    (family_untouched_set_queue k q _ vm)).
Qed.

Section Flags.
Context {T : Type} `{HeapOop T}.

(** X16.  No operation of the barrier set ever writes the active flag of a
    queue set, and the only queue flag any of them writes is the one
    [on_thread_attach] sets on the SATB queue of the thread it attaches.
    The base class's detach bookkeeping is taken to keep the flags. *)
Theorem only_attach_writes_an_active_flag
    (thr : Thread) (op : operation T) (vm vm' : VM) :
  (∀ t s, active_flags_kept s (CardTableBarrierSet_on_thread_detach t s)) →
  run_operation thr op vm = Ok vm' →
  (∀ k, _all_active (qset k vm') = _all_active (qset k vm)) ∧
  (∀ k q, ¬ (∃ t, op = OpOnThreadAttach t ∧ k = SATB ∧ q = ThreadQ t) →
          _active (queue_of k q vm') = _active (queue_of k q vm)).
Proof.
  intros Hbase Hrun.
  assert (active_flags_kept vm vm' →
          (∀ k, _all_active (qset k vm') = _all_active (qset k vm)) ∧
          (∀ k q, ¬ (∃ t, op = OpOnThreadAttach t ∧ k = SATB ∧ q = ThreadQ t) →
                  _active (queue_of k q vm') = _active (queue_of k q vm)))
    as Hkept.
  { intros [Ha Hq]. split; [exact Ha|]. intros k q _. apply Hq. }
  destruct op as [r|mem dst count uninit|byte|mr|thread|thread];
    cbn [run_operation] in Hrun.
  - apply Hkept. destruct (PtrQueueSet.is_active (qset SATB vm)) eqn:Hact.
    + apply active_flags_kept_of_kept.
      by destruct (enqueue_Ok_active _ _ _ _ Hact Hrun) as (_ & _ & _ & ? & _).
    + rewrite (enqueue_Ok_inactive _ _ _ _ Hact Hrun). apply active_flags_kept_refl.
  - apply Hkept. revert Hrun.
    unfold G1BarrierSet.write_ref_array_pre, G1BarrierSet.write_ref_array_pre_work.
    destruct uninit; cbn [negb];
      [intros <-%Ok_inj; apply active_flags_kept_refl|].
    destruct (PtrQueueSet.is_active (qset SATB vm)) eqn:Hact; cbn [negb];
      [|intros <-%Ok_inj; apply active_flags_kept_refl].
    rewrite write_ref_array_pre_loop_slots. intros Hrun.
    apply active_flags_kept_of_kept.
    by destruct (for_each_slot_active _ _ _ _ _ Hact Hrun) as (_ & _ & _ & ? & _).
  - apply Hkept. revert Hrun. unfold G1BarrierSet.write_ref_field_post_slow.
    destruct (G1BarrierSet.assert _ _); [|discriminate]. cbn [mbind outcome_bind].
    destruct (negb _); [|intros <-%Ok_inj; apply active_flags_kept_log].
    set (vm1 := store_byte byte dirty_card_val (G1BarrierSet.storeload vm)).
    assert (active_flags_kept vm vm1) as Hk1
      by (apply active_flags_kept_families; intros []; split; reflexivity).
    destruct thr as [jt|]; intros <-%Ok_inj;
      (eapply active_flags_kept_trans; [exact Hk1|]);
      apply active_flags_kept_of_kept.
    + apply PtrQueue_enqueue_frame.
    + apply (PtrQueue_enqueue_logged DirtyCard SharedQ byte
               (EvLock Shared_DirtyCardQ_lock) (EvUnlock Shared_DirtyCardQ_lock) vm1).
  - apply Hkept. apply Ok_inj in Hrun as <-. unfold G1BarrierSet.invalidate.
    destruct (MemRegion.is_empty mr); [apply active_flags_kept_refl|].
    destruct (_ <=? _); [|apply active_flags_kept_refl].
    destruct thr as [jt|].
    + eapply active_flags_kept_trans;
        [apply active_flags_kept_log | apply active_flags_kept_dirty_loop].
    + eapply active_flags_kept_trans; [|apply active_flags_kept_log].
      eapply active_flags_kept_trans; [|apply active_flags_kept_dirty_loop].
      eapply active_flags_kept_trans; apply active_flags_kept_log.
  - apply on_thread_attach_Ok in Hrun as ->.
    destruct (PtrQueueSet.is_active (qset SATB vm)) eqn:Hact;
      [|apply Hkept, active_flags_kept_refl].
    split; [by intros []|]. intros k q Hne. destruct k.
    + rewrite queue_of_set_queue_ne; [done|]. intros ->. apply Hne. by exists thread.
    + by rewrite (family_untouched_queue_of DirtyCard q _ _
                    (family_untouched_set_queue SATB _ _ vm)).
  - apply Hkept. apply Ok_inj in Hrun as <-. unfold G1BarrierSet.on_thread_detach.
    eapply active_flags_kept_trans; [apply Hbase|].
    eapply active_flags_kept_trans; apply active_flags_kept_flush.
Qed.

End Flags.

End Properties.

(** * Instances of the theorems *)

Lemma enqueue_appends_iff_active_witness :
  (4096 ≠ NULL ∧ @is_valid_object debug_build 4096 = true) ∧
  ∃ vm', @G1BarrierSet.enqueue debug_build (JavaThreadPtr 0%nat) 4096
           (sample_vm true sample_cards) = Ok vm' ∧
    (PtrQueueSet.is_active (qset SATB (sample_vm true sample_cards)) = true →
       @appended_to debug_build SATB (ThreadQ 0%nat) 4096
         (sample_vm true sample_cards) vm' ∧
       others_untouched SATB (ThreadQ 0%nat) (sample_vm true sample_cards) vm' ∧
       family_untouched DirtyCard (sample_vm true sample_cards) vm') ∧
    (PtrQueueSet.is_active (qset SATB (sample_vm true sample_cards)) = false →
       vm' = sample_vm true sample_cards) ∧
    ((∃ k q, records k q vm' = records k q (sample_vm true sample_cards) ++ [4096]) ↔
       PtrQueueSet.is_active (qset SATB (sample_vm true sample_cards)) = true).
Proof.
  split; [split; [discriminate | reflexivity] |].
  apply (@enqueue_appends_iff_active debug_build (JavaThreadPtr 0%nat) 4096
           (sample_vm true sample_cards)); [discriminate | reflexivity].
Defined.

Lemma write_ref_array_pre_active_snapshots_each_slot_witness :
  PtrQueueSet.is_active (qset SATB (sample_vm true sample_cards)) = true ∧
  (@G1BarrierSet.write_ref_array_pre debug_build oop oop_slots (JavaThreadPtr 0%nat)
     sample_heap 100 3 false (sample_vm true sample_cards) =
   @pre_write_array_spec debug_build oop oop_slots (JavaThreadPtr 0%nat)
     sample_heap 100 3 (sample_vm true sample_cards) ∧
   ∀ vm', @G1BarrierSet.write_ref_array_pre debug_build oop oop_slots
            (JavaThreadPtr 0%nat) sample_heap 100 3 false
            (sample_vm true sample_cards) = Ok vm' →
     records SATB (ThreadQ 0%nat) vm' =
       records SATB (ThreadQ 0%nat) (sample_vm true sample_cards) ++
       @snapshot_of oop oop_slots sample_heap (seqZ 100 3) ∧
     others_untouched SATB (ThreadQ 0%nat) (sample_vm true sample_cards) vm' ∧
     family_untouched DirtyCard (sample_vm true sample_cards) vm' ∧
     trace vm' =
       trace (sample_vm true sample_cards) ++
       concat (@slot_events oop oop_slots (JavaThreadPtr 0%nat) sample_heap
                 <$> seqZ 100 3)).
Proof.
  split; [reflexivity |].
  apply (@write_ref_array_pre_active_snapshots_each_slot debug_build oop oop_slots
           (JavaThreadPtr 0%nat) sample_heap 100 3 (sample_vm true sample_cards)).
  reflexivity.
Defined.

(** C5 as stated fails while the queue set is inactive: the code returns
    without reading any slot, whereas a barrier that reads each slot logs
    three loads. *)
Lemma write_ref_array_pre_reads_each_slot_counterexample :
  let vm := sample_vm false sample_cards in
  @G1BarrierSet.write_ref_array_pre product_build oop oop_slots (JavaThreadPtr 0%nat)
    sample_heap 100 3 false vm = Ok vm ∧
  trace vm = [] ∧
  (∃ vm1, @pre_write_array_spec product_build oop oop_slots (JavaThreadPtr 0%nat)
            sample_heap 100 3 vm = Ok vm1 ∧
          trace vm1 = [EvOopLoad 100; EvOopLoad 101; EvOopLoad 102]) ∧
  @G1BarrierSet.write_ref_array_pre product_build oop oop_slots (JavaThreadPtr 0%nat)
    sample_heap 100 3 false vm ≠
  @pre_write_array_spec product_build oop oop_slots (JavaThreadPtr 0%nat)
    sample_heap 100 3 vm.
Proof.
  cbv zeta. split; [reflexivity |]. split; [reflexivity |]. split.
  - eexists. split; [vm_compute; reflexivity | reflexivity].
  - intros Heq. apply (f_equal (λ o, match o with Ok v => trace v | _ => [] end)) in Heq.
    vm_compute in Heq. discriminate.
Qed.

Lemma write_ref_array_pre_inactive_noop_witness :
  PtrQueueSet.is_active (qset SATB (sample_vm false sample_cards)) = false ∧
  @G1BarrierSet.write_ref_array_pre debug_build oop oop_slots NonJavaThread
    sample_heap 100 3 false (sample_vm false sample_cards) =
  Ok (sample_vm false sample_cards).
Proof.
  split; [reflexivity |].
  apply (@write_ref_array_pre_inactive_noop debug_build oop oop_slots NonJavaThread
           sample_heap 100 3 (sample_vm false sample_cards)).
  reflexivity.
Defined.

Lemma sample_cards_young b : 0 ≤ b ≤ 1 → sample_cards b = 32.
Proof.
  intros Hb. unfold sample_cards.
  by rewrite (proj2 (Z.leb_le 0 b)), (proj2 (Z.leb_le b 1)) by lia.
Qed.

Lemma sample_cards_clean b : 1 < b → sample_cards b = -1.
Proof.
  intros Hb. unfold sample_cards.
  rewrite (proj2 (Z.leb_gt b 1)) by lia. by rewrite andb_false_r.
Qed.

Lemma invalidate_young_prefix_clean_suffix_witness :
  let vm := sample_vm false sample_cards in
  let vm' := @G1BarrierSet.invalidate debug_build NonJavaThread sample_region vm in
  (@clean_card_val debug_build ≠ @g1_young_card_val debug_build ∧
   @clean_card_val debug_build ≠ @dirty_card_val debug_build ∧
   MemRegion.is_empty sample_region = false ∧
   0 - 1 ≤ 1 ≤ 3 ∧
   (∀ b, 0 ≤ b ≤ 1 → byte_map vm b = 32) ∧
   (∀ b, 1 < b ≤ 3 → byte_map vm b = -1)) ∧
  (∀ thr0 mr0 vm0, MemRegion.is_empty mr0 = true →
                   @G1BarrierSet.invalidate debug_build thr0 mr0 vm0 = vm0) ∧
  (∀ b, 0 ≤ b ≤ 1 → byte_map vm' b = byte_map vm b) ∧
  (∀ b, 1 < b ≤ 3 → byte_map vm' b = 0) ∧
  (∀ b, ¬ (0 ≤ b ≤ 3) → byte_map vm' b = byte_map vm b) ∧
  records DirtyCard SharedQ vm' = records DirtyCard SharedQ vm ++ seqZ (1 + 1) (3 - 1) ∧
  others_untouched DirtyCard SharedQ vm vm' ∧
  family_untouched SATB vm vm' ∧
  trace vm' =
    trace vm ++
    (if decide (1 < 3) then invalidate_events NonJavaThread (seqZ (1 + 1) (3 - 1))
     else []).
Proof.
  intros vm vm'.
  assert (∀ b, 0 ≤ b ≤ 1 → byte_map vm b = 32) as Hyoung
    by (intros b Hb; apply sample_cards_young, Hb).
  assert (∀ b, 1 < b ≤ 3 → byte_map vm b = -1) as Hclean
    by (intros b Hb; apply sample_cards_clean; lia).
  split.
  - split; [discriminate|]. split; [discriminate|]. split; [reflexivity|].
    split; [lia|]. split; assumption.
  - split.
    + apply (@invalidate_young_prefix_clean_suffix debug_build NonJavaThread
               sample_region 1 vm).
    + apply (@invalidate_young_prefix_clean_suffix debug_build NonJavaThread
               sample_region 1 vm);
        [discriminate | discriminate | reflexivity | split; vm_compute; discriminate
        | exact Hyoung | exact Hclean].
Defined.

Lemma write_ref_field_post_slow_dirties_once_witness :
  let vm := sample_vm false sample_cards in
  (@g1_young_card_val debug_build ≠ @dirty_card_val debug_build ∧
   byte_map vm 5 ≠ @g1_young_card_val debug_build) ∧
  ∃ vm', @G1BarrierSet.write_ref_field_post_slow debug_build (JavaThreadPtr 0%nat) 5 vm
           = Ok vm' ∧
    byte_map vm' 5 = @dirty_card_val debug_build ∧
    (∀ b, b ≠ 5 → byte_map vm' b = byte_map vm b) ∧
    family_untouched SATB vm vm' ∧
    (byte_map vm 5 ≠ @dirty_card_val debug_build →
       @appended_to debug_build DirtyCard (ThreadQ 0%nat) 5 vm vm' ∧
       others_untouched DirtyCard (ThreadQ 0%nat) vm vm' ∧
       trace vm' = trace vm ++
                   EvStoreLoad :: dirty_card_events (JavaThreadPtr 0%nat) 5) ∧
    (byte_map vm 5 = @dirty_card_val debug_build →
       family_untouched DirtyCard vm vm' ∧
       trace vm' = trace vm ++ [EvStoreLoad]) ∧
    (∀ thr' fields, Forall (λ field, @byte_for debug_build field = 5) fields →
       ∃ vm'', @post_slow_run debug_build thr' fields vm' = Ok vm'' ∧
         byte_map vm'' = byte_map vm' ∧
         ∀ k, family_untouched k vm' vm'').
Proof.
  intros vm. split; [split; discriminate|].
  apply (@write_ref_field_post_slow_dirties_once debug_build (JavaThreadPtr 0%nat) 5 vm);
    discriminate.
Defined.

(** C4 as stated fails for the slow path of a build without assertions: a
    call on the young card 0 makes it dirty and enqueues it. *)
Lemma write_ref_field_post_slow_young_counterexample :
  let vm := sample_vm false sample_cards in
  byte_map vm 0 = @g1_young_card_val product_build ∧
  ∃ vm', @G1BarrierSet.write_ref_field_post_slow product_build (JavaThreadPtr 0%nat) 0 vm
           = Ok vm' ∧
    byte_map vm' 0 = @dirty_card_val product_build ∧
    byte_map vm' 0 ≠ byte_map vm 0 ∧
    _buf (queue_of DirtyCard (ThreadQ 0%nat) vm) = [] ∧
    _buf (queue_of DirtyCard (ThreadQ 0%nat) vm') = [0].
Proof.
  cbv zeta. split; [reflexivity|].
  eexists. split; [reflexivity|].
  split; [reflexivity|]. split; [discriminate|]. split; reflexivity.
Qed.

Lemma young_card_short_circuit_witness :
  let vm := sample_vm false sample_cards in
  byte_map vm 0 = @g1_young_card_val debug_build ∧
  (∀ thr mr,
     let vm' := @G1BarrierSet.invalidate debug_build thr mr vm in
     byte_map vm' 0 = @g1_young_card_val debug_build ∧
     ∃ l evs,
       records DirtyCard (queue_for thr) vm' =
         records DirtyCard (queue_for thr) vm ++ l ∧
       (0 ∉ l) ∧
       others_untouched DirtyCard (queue_for thr) vm vm' ∧
       trace vm' = trace vm ++ evs ∧
       ∀ k q, EvEnqueue k q 0 ∉ evs) ∧
  (∀ thr field, @byte_for debug_build field = 0 →
     @G1BarrierSet.write_ref_field_post debug_build thr field vm = Ok vm) ∧
  (@ASSERT debug_build = true →
   ∀ thr, @G1BarrierSet.write_ref_field_post_slow debug_build thr 0 vm =
          AssertionFailure "slow path invoked without filtering").
Proof.
  intros vm. split; [reflexivity|].
  apply (@young_card_short_circuit debug_build 0 vm). reflexivity.
Defined.

Lemma on_thread_attach_follows_global_flag_witness :
  let vm := sample_vm true sample_cards in
  (is_at_safepoint vm = false ∧
   PtrQueue.is_active (queue_of SATB (ThreadQ 3%nat) vm) = false ∧
   PtrQueue.is_empty (queue_of SATB (ThreadQ 3%nat) vm) = true ∧
   PtrQueue.is_active (queue_of DirtyCard (ThreadQ 3%nat) vm) = true) ∧
  ∃ vm', @G1BarrierSet.on_thread_attach debug_build 3%nat vm = Ok vm' ∧
    PtrQueue.is_active (queue_of SATB (ThreadQ 3%nat) vm') =
      PtrQueueSet.is_active (qset SATB vm) ∧
    PtrQueue.is_empty (queue_of SATB (ThreadQ 3%nat) vm') = true ∧
    others_untouched SATB (ThreadQ 3%nat) vm vm' ∧
    qset SATB vm' = qset SATB vm ∧
    family_untouched DirtyCard vm vm' ∧
    byte_map vm' = byte_map vm ∧
    trace vm' = trace vm.
Proof.
  intros vm. split; [by repeat split|].
  apply (@on_thread_attach_follows_global_flag debug_build 3%nat vm); reflexivity.
Defined.

Lemma on_thread_detach_flushes_both_witness :
  let vm := sample_detach_vm in
  let vm0 := @CardTableBarrierSet_on_thread_detach deferred_mark_build 0%nat vm in
  let vm' := @G1BarrierSet.on_thread_detach deferred_mark_build 0%nat vm in
  (∀ k x, x ∈ _buf (queue_of k (ThreadQ 0%nat) vm) →
          x ∈ records k (ThreadQ 0%nat) vm0) ∧
  (_completed_buffers (qset SATB vm') = [[4096]] ∧
   _completed_buffers (qset DirtyCard vm') = [[1; 2; 3; 4]; [5; 6; 7]]) ∧
  ∀ k,
    PtrQueue.is_empty (queue_of k (ThreadQ 0%nat) vm') = true ∧
    _completed_buffers (qset k vm') =
      _completed_buffers (qset k vm0) ++
      handed_off (_buf (queue_of k (ThreadQ 0%nat) vm0)) ∧
    records k (ThreadQ 0%nat) vm' = records k (ThreadQ 0%nat) vm0 ∧
    others_untouched k (ThreadQ 0%nat) vm0 vm' ∧
    (∀ x, x ∈ _buf (queue_of k (ThreadQ 0%nat) vm) →
          x ∈ records k (ThreadQ 0%nat) vm0 →
          ∃ buf, buf ∈ _completed_buffers (qset k vm') ∧ x ∈ buf).
Proof.
  intros vm vm0 vm'. split; [|split].
  - intros k x Hx. destruct k.
    + assert (records SATB (ThreadQ 0%nat) vm0 = [4096]) as ->
        by (vm_compute; reflexivity).
      exact Hx.
    + assert (records DirtyCard (ThreadQ 0%nat) vm0 = [1; 2; 3; 4] ++ [5; 6] ++ [7])
        as -> by (vm_compute; reflexivity).
      apply elem_of_app. right. apply elem_of_app. left. exact Hx.
  - split; vm_compute; reflexivity.
  - apply (@on_thread_detach_flushes_both deferred_mark_build 0%nat vm).
Defined.

Lemma oop_slots_decode_not_null (v : oop) :
  @is_null oop oop_slots v = false → @decode_not_null oop oop_slots v ≠ NULL.
Proof. cbn. intros Hv. by apply Z.eqb_neq. Qed.

Lemma sample_vm_satb_no_null active cards : satb_no_null (sample_vm active cards).
Proof.
  split.
  - intros []; cbn; apply not_elem_of_nil.
  - intros buf Hbuf. cbn in Hbuf. by apply not_elem_of_nil in Hbuf.
Qed.

Lemma satb_no_null_preserved_witness :
  let vm := sample_vm true sample_cards in
  let op := OpWriteRefArrayPre sample_heap 100 3 false in
  ((∀ v : oop, @is_null oop oop_slots v = false →
               @decode_not_null oop oop_slots v ≠ NULL) ∧
   (∀ t s, family_untouched SATB s
             (@CardTableBarrierSet_on_thread_detach debug_build t s)) ∧
   null_filtered op ∧
   satb_no_null vm) ∧
  ∃ vm', @run_operation debug_build oop oop_slots (JavaThreadPtr 0%nat) op vm = Ok vm' ∧
    records SATB (ThreadQ 0%nat) vm' = [4096; 8192] ∧
    satb_no_null vm'.
Proof.
  intros vm op.
  assert (∀ t s, family_untouched SATB s
                   (@CardTableBarrierSet_on_thread_detach debug_build t s)) as Hbase
    by (intros t s; split; reflexivity).
  split.
  - split; [exact oop_slots_decode_not_null|]. split; [exact Hbase|].
    split; [exact I | apply sample_vm_satb_no_null].
  - eexists. split; [vm_compute; reflexivity|]. split; [reflexivity|].
    apply (@satb_no_null_preserved debug_build oop oop_slots (JavaThreadPtr 0%nat)
             op vm _ oop_slots_decode_not_null Hbase I
             (sample_vm_satb_no_null true sample_cards)).
    vm_compute. reflexivity.
Defined.

(** ** Sample runs *)

Example invalidate_sample_run :
  let vm' := @G1BarrierSet.invalidate debug_build NonJavaThread sample_region
               (sample_vm false sample_cards) in
  (byte_map vm' <$> [0; 1; 2; 3; 4]) = [32; 32; 0; 0; -1] ∧
  _buf (queue_of DirtyCard SharedQ vm') = [2; 3] ∧
  trace vm' = [EvStoreLoad; EvLock Shared_DirtyCardQ_lock;
               EvEnqueue DirtyCard SharedQ 2; EvEnqueue DirtyCard SharedQ 3;
               EvUnlock Shared_DirtyCardQ_lock].
Proof. vm_compute. split_and!; reflexivity. Qed.

(** The fourth record fills the buffer, which is handed to the set. *)
Example post_slow_run_hands_off_full_buffer :
  match @post_slow_run product_build (JavaThreadPtr 0%nat) [128; 192; 256; 320; 384]
          (sample_vm false sample_cards) with
  | Ok vm' =>
      _completed_buffers (qset DirtyCard vm') = [[2; 3; 4; 5]] ∧
      _buf (queue_of DirtyCard (ThreadQ 0%nat) vm') = [6] ∧
      records DirtyCard (ThreadQ 0%nat) vm' = [2; 3; 4; 5; 6]
  | AssertionFailure _ => False
  end.
Proof. vm_compute. split_and!; reflexivity. Qed.

Example array_pre_sample_run :
  match @G1BarrierSet.write_ref_array_pre debug_build oop oop_slots NonJavaThread
          sample_heap 100 3 false (sample_vm true sample_cards) with
  | Ok vm' =>
      _buf (queue_of SATB SharedQ vm') = [4096; 8192] ∧
      trace vm' = [EvOopLoad 100; EvLock Shared_SATB_Q_lock;
                   EvEnqueue SATB SharedQ 4096; EvUnlock Shared_SATB_Q_lock;
                   EvOopLoad 101;
                   EvOopLoad 102; EvLock Shared_SATB_Q_lock;
                   EvEnqueue SATB SharedQ 8192; EvUnlock Shared_SATB_Q_lock]
  | AssertionFailure _ => False
  end.
Proof. vm_compute. split_and!; reflexivity. Qed.

(** A debug build stops [enqueue] on a null reference; a product build
    appends it. *)
Example enqueue_null_by_build :
  @G1BarrierSet.enqueue debug_build (JavaThreadPtr 0%nat) NULL
    (sample_vm true sample_cards) = AssertionFailure "Error" ∧
  match @G1BarrierSet.enqueue product_build (JavaThreadPtr 0%nat) NULL
          (sample_vm true sample_cards) with
  | Ok vm' => _buf (queue_of SATB (ThreadQ 0%nat) vm') = [NULL]
  | AssertionFailure _ => False
  end.
Proof. vm_compute. split_and!; reflexivity. Qed.

(** ** Instances of the further properties *)

Lemma invalidate_dirties_exactly_the_clean_cards_witness :
  let vm := sample_vm false mixed_cards in
  let l := filter (@needs_dirtying debug_build (byte_map vm))
                  (@region_cards debug_build sample_region) in
  let vm' := @G1BarrierSet.invalidate debug_build (JavaThreadPtr 0%nat)
               sample_region vm in
  MemRegion.is_empty sample_region = false ∧
  (∀ b, byte_map vm' b =
        if decide (b ∈ l) then @dirty_card_val debug_build else byte_map vm b) ∧
  records DirtyCard (ThreadQ 0%nat) vm' = records DirtyCard (ThreadQ 0%nat) vm ++ l ∧
  NoDup l ∧
  others_untouched DirtyCard (ThreadQ 0%nat) vm vm' ∧
  family_untouched SATB vm vm'.
Proof.
  intros vm l vm'. split; [reflexivity|].
  apply (@invalidate_dirties_exactly_the_clean_cards debug_build
           (JavaThreadPtr 0%nat) sample_region vm).
  reflexivity.
Defined.

Lemma invalidate_fence_only_past_young_cards_witness :
  let vm := sample_vm false mixed_cards in
  let l := filter (@needs_dirtying debug_build (byte_map vm))
                  (@region_cards debug_build sample_region) in
  let vm' := @G1BarrierSet.invalidate debug_build NonJavaThread sample_region vm in
  MemRegion.is_empty sample_region = false ∧
  (Forall (λ b, byte_map vm b = @g1_young_card_val debug_build)
          (@region_cards debug_build sample_region) →
   vm' = vm) ∧
  (Exists (λ b, byte_map vm b ≠ @g1_young_card_val debug_build)
          (@region_cards debug_build sample_region) →
   trace vm' = trace vm ++ invalidate_events NonJavaThread l).
Proof.
  intros vm l vm'. split; [reflexivity|].
  apply (@invalidate_fence_only_past_young_cards debug_build NonJavaThread
           sample_region vm).
  reflexivity.
Defined.

Lemma post_slow_after_invalidate_only_fences_witness :
  let vm := sample_vm false mixed_cards in
  let vm1 := @G1BarrierSet.invalidate debug_build NonJavaThread sample_region vm in
  (@g1_young_card_val debug_build ≠ @dirty_card_val debug_build ∧
   MemRegion.is_empty sample_region = false ∧
   1 ∈ @region_cards debug_build sample_region ∧
   byte_map vm 1 ≠ @g1_young_card_val debug_build) ∧
  @G1BarrierSet.write_ref_field_post_slow debug_build (JavaThreadPtr 0%nat) 1 vm1 =
  Ok (G1BarrierSet.storeload vm1).
Proof.
  intros vm vm1.
  assert (1 ∈ @region_cards debug_build sample_region) as Hin
    by (apply elem_of_seqZ; split; by vm_compute).
  split; [split; [discriminate|]; split; [reflexivity|]; split;
          [exact Hin | discriminate]|].
  apply (@post_slow_after_invalidate_only_fences debug_build NonJavaThread
           (JavaThreadPtr 0%nat) sample_region 1 vm);
    [discriminate | reflexivity | exact Hin | discriminate].
Defined.

Lemma post_slow_run_one_record_per_card_witness :
  let vm := sample_vm false mixed_cards in
  let fields := [64; 70; 256; 128] in
  (@g1_young_card_val debug_build ≠ @dirty_card_val debug_build ∧
   Forall (λ field, byte_map vm (@byte_for debug_build field)
                    ≠ @g1_young_card_val debug_build) fields) ∧
  ∃ vm' l, @post_slow_run debug_build (JavaThreadPtr 0%nat) fields vm = Ok vm' ∧
    records DirtyCard (ThreadQ 0%nat) vm' =
      records DirtyCard (ThreadQ 0%nat) vm ++ l ∧
    NoDup l ∧
    (∀ c, c ∈ l ↔ c ∈ @byte_for debug_build <$> fields ∧
                  byte_map vm c ≠ @dirty_card_val debug_build) ∧
    (∀ c, byte_map vm' c =
          if decide (c ∈ @byte_for debug_build <$> fields)
          then @dirty_card_val debug_build else byte_map vm c) ∧
    others_untouched DirtyCard (ThreadQ 0%nat) vm vm' ∧
    family_untouched SATB vm vm'.
Proof.
  intros vm fields.
  assert (Forall (λ field, byte_map vm (@byte_for debug_build field)
                           ≠ @g1_young_card_val debug_build) fields) as Hall
    by (repeat constructor; discriminate).
  split; [split; [discriminate | exact Hall]|].
  apply (@post_slow_run_one_record_per_card debug_build (JavaThreadPtr 0%nat)
           fields vm); [discriminate | exact Hall].
Defined.

Lemma write_ref_field_post_slow_product_build_witness :
  let vm := sample_vm false mixed_cards in
  @ASSERT product_build = false ∧
  ∃ vm', @G1BarrierSet.write_ref_field_post_slow product_build NonJavaThread 0 vm
           = Ok vm' ∧
    byte_map vm' 0 = @dirty_card_val product_build ∧
    (∀ b, b ≠ 0 → byte_map vm' b = byte_map vm b) ∧
    records DirtyCard SharedQ vm' =
      records DirtyCard SharedQ vm ++
      (if decide (byte_map vm 0 = @dirty_card_val product_build) then [] else [0]) ∧
    others_untouched DirtyCard SharedQ vm vm' ∧
    family_untouched SATB vm vm'.
Proof.
  intros vm. split; [reflexivity|].
  apply (@write_ref_field_post_slow_product_build product_build NonJavaThread 0 vm).
  reflexivity.
Defined.

Lemma write_ref_array_pre_debug_returns_iff_witness :
  let vm := sample_vm true sample_cards in
  @ASSERT debug_build = true ∧
  ((∃ vm', @G1BarrierSet.write_ref_array_pre debug_build oop oop_slots
             (JavaThreadPtr 0%nat) sample_heap 100 3 false vm = Ok vm') ↔
   (PtrQueueSet.is_active (qset SATB vm) = false ∨
    ∀ p, p ∈ seqZ 100 (Z.of_N 3) → @is_null oop oop_slots (sample_heap p) = false →
         @G1BarrierSet.is_oop debug_build
           (@decode_not_null oop oop_slots (sample_heap p)) true = true)).
Proof.
  intros vm. split; [reflexivity|].
  apply (@write_ref_array_pre_debug_returns_iff debug_build oop oop_slots
           (JavaThreadPtr 0%nat) sample_heap 100 3 vm).
  reflexivity.
Defined.

Lemma on_thread_attach_returns_iff_precondition_witness :
  let vm := sample_detach_vm in
  @ASSERT debug_build = true ∧
  ((∃ vm', @G1BarrierSet.on_thread_attach debug_build 0%nat vm = Ok vm') ↔
   is_at_safepoint vm = false ∧
   PtrQueue.is_active (queue_of SATB (ThreadQ 0%nat) vm) = false ∧
   PtrQueue.is_empty (queue_of SATB (ThreadQ 0%nat) vm) = true ∧
   PtrQueue.is_active (queue_of DirtyCard (ThreadQ 0%nat) vm) = true).
Proof.
  intros vm. split; [reflexivity|].
  apply (@on_thread_attach_returns_iff_precondition debug_build 0%nat vm).
  reflexivity.
Defined.

Lemma on_thread_attach_only_sets_the_flag_witness :
  let vm := sample_detach_vm in
  ∃ vm', @G1BarrierSet.on_thread_attach product_build 0%nat vm = Ok vm' ∧
    PtrQueue.is_active (queue_of SATB (ThreadQ 0%nat) vm') =
      PtrQueueSet.is_active (qset SATB vm) ||
      PtrQueue.is_active (queue_of SATB (ThreadQ 0%nat) vm) ∧
    (∀ k q, _buf (queue_of k q vm') = _buf (queue_of k q vm)) ∧
    (∀ k, qset k vm' = qset k vm) ∧
    others_untouched SATB (ThreadQ 0%nat) vm vm' ∧
    family_untouched DirtyCard vm vm' ∧
    byte_map vm' = byte_map vm ∧
    is_at_safepoint vm' = is_at_safepoint vm ∧
    trace vm' = trace vm.
Proof.
  intros vm. eexists. split; [vm_compute; reflexivity|].
  apply (@on_thread_attach_only_sets_the_flag product_build 0%nat vm).
  vm_compute. reflexivity.
Defined.

Lemma pre_write_leaves_cards_alone_witness :
  let vm := sample_vm true sample_cards in
  let op := OpWriteRefArrayPre sample_heap 100 3 false in
  is_pre_write op = true ∧
  ∃ vm', @run_operation debug_build oop oop_slots NonJavaThread op vm = Ok vm' ∧
    flags_and_cards_kept vm vm' ∧ family_untouched DirtyCard vm vm'.
Proof.
  intros vm op. split; [reflexivity|].
  eexists. split; [vm_compute; reflexivity|].
  apply (@pre_write_leaves_cards_alone debug_build oop oop_slots NonJavaThread op vm);
    [reflexivity | vm_compute; reflexivity].
Defined.

Lemma card_marking_leaves_satb_alone_witness :
  let vm := sample_vm true mixed_cards in
  let op : operation oop := OpInvalidate sample_region in
  is_card_marking op = true ∧
  ∃ vm', @run_operation debug_build oop oop_slots NonJavaThread op vm = Ok vm' ∧
    family_untouched SATB vm vm' ∧
    (∀ b, byte_map vm' b = byte_map vm b ∨
          byte_map vm' b = @dirty_card_val debug_build).
Proof.
  intros vm op. split; [reflexivity|].
  eexists. split; [reflexivity|].
  apply (@card_marking_leaves_satb_alone debug_build oop oop_slots NonJavaThread op vm);
    reflexivity.
Defined.

Lemma locks_are_scoped_and_mutators_lock_free_witness :
  let vm := sample_vm true mixed_cards in
  let op : operation oop := OpInvalidate sample_region in
  (∀ t s, trace (@CardTableBarrierSet_on_thread_detach debug_build t s) = trace s) ∧
  ∃ vm', @run_operation debug_build oop oop_slots NonJavaThread op vm = Ok vm' ∧
    ∃ evs, trace vm' = trace vm ++ evs ∧
      run_locks [] evs = Some [] ∧
      (is_Java_thread NonJavaThread = true →
       Forall (λ e, is_lock_event e = false) evs).
Proof.
  intros vm op.
  assert (∀ t s, trace (@CardTableBarrierSet_on_thread_detach debug_build t s)
                 = trace s) as Hbase by reflexivity.
  split; [exact Hbase|].
  eexists. split; [reflexivity|].
  apply (@locks_are_scoped_and_mutators_lock_free debug_build oop oop_slots
           NonJavaThread op vm _ Hbase).
  reflexivity.
Defined.

Lemma operations_are_confined_to_one_queue_witness :
  let vm := sample_vm true mixed_cards in
  let op : operation oop := OpInvalidate sample_region in
  (∀ k t s, family_untouched k s
              (@CardTableBarrierSet_on_thread_detach debug_build t s)) ∧
  ∃ vm', @run_operation debug_build oop oop_slots NonJavaThread op vm = Ok vm' ∧
    (∀ k, others_untouched k (touched_queue NonJavaThread op) vm vm') ∧
    (is_pre_write op || is_card_marking op = true →
     ∀ k jt, queue_of k (ThreadQ jt) vm' = queue_of k (ThreadQ jt) vm).
Proof.
  intros vm op.
  assert (∀ k t s, family_untouched k s
                     (@CardTableBarrierSet_on_thread_detach debug_build t s)) as Hbase
    by (intros k t s; split; reflexivity).
  split; [exact Hbase|].
  eexists. split; [reflexivity|].
  apply (@operations_are_confined_to_one_queue debug_build oop oop_slots
           NonJavaThread op vm _ Hbase).
  reflexivity.
Defined.

Lemma only_attach_writes_an_active_flag_witness :
  let vm := sample_vm true sample_cards in
  let op : operation oop := OpOnThreadAttach 3%nat in
  (∀ t s, active_flags_kept s
            (@CardTableBarrierSet_on_thread_detach debug_build t s)) ∧
  ∃ vm', @run_operation debug_build oop oop_slots NonJavaThread op vm = Ok vm' ∧
    (∀ k, _all_active (qset k vm') = _all_active (qset k vm)) ∧
    (∀ k q, ¬ (∃ t, op = OpOnThreadAttach t ∧ k = SATB ∧ q = ThreadQ t) →
            _active (queue_of k q vm') = _active (queue_of k q vm)).
Proof.
  intros vm op.
  assert (∀ t s, active_flags_kept s
                   (@CardTableBarrierSet_on_thread_detach debug_build t s)) as Hbase
    by (intros t s; split; reflexivity).
  split; [exact Hbase|].
  eexists. split; [vm_compute; reflexivity|].
  apply (@only_attach_writes_an_active_flag debug_build oop oop_slots
           NonJavaThread op vm _ Hbase).
  vm_compute. reflexivity.
Defined.
